(** * Corpspeak streaming demo: callable function, Genkit flow and web client

    A shallow embedding of the three TypeScript programs of the demo:

    - [functions/src/index.ts]: the [onCall] handler [generateCorpspeak],
      which serves one call either as a single result or as a sequence of
      chunks followed by a result (module [Server]);
    - the Genkit-flow variant of the same function, [corpspeakGeneratorFlow]
      (module [Flow]);
    - the web page script with [handleNonStreamingRequest] and
      [handleStreamingRequest] (module [Client]).

    JavaScript strings are sequences of UTF-16 code units.  A server
    handler is a computation that logs its effects and either returns or
    throws (module [Platform]); a client handler is the list of the code
    segments it runs between two [await]s, each a function on the page.
    The text generator ([ai.generate], [ai.generateStream]), the replies
    of the network and the readings of the clock ([performance.now]) are
    inputs of the model.  Module [Props] holds the vocabulary of the
    properties, which are proved in the second half of the file. *)

From Stdlib Require Import ZArith NArith List String Ascii Bool Lia.
From stdpp Require Import base list.
Import ListNotations.

Local Open Scope N_scope.

(** ** JavaScript strings and values *)

Module Js.

(** A string is the list of its UTF-16 code units. *)
Definition JsString : Type := list N.

(** An ASCII literal of the source. *)
Definition lit (s : string) : JsString :=
  map N_of_ascii (list_ascii_of_string s).

Definition nl : N := 10.
Definition dq : N := 34.
Definition space : N := 32.

(** A source line of a template literal, with its line break. *)
Definition line (s : string) : JsString := lit s ++ [nl].

(** The code units [String.prototype.trim] strips: ECMAScript's WhiteSpace
    (TAB, VT, FF, SP, NBSP, ZWNBSP and the space separators) and
    LineTerminator (LF, CR, LS, PS). *)
Definition isWhiteSpace (c : N) : bool :=
  ((0x9 <=? c) && (c <=? 0xD))
  || (c =? 0x20) || (c =? 0xA0) || (c =? 0x1680)
  || ((0x2000 <=? c) && (c <=? 0x200A))
  || (c =? 0x2028) || (c =? 0x2029) || (c =? 0x202F) || (c =? 0x205F)
  || (c =? 0x3000) || (c =? 0xFEFF).

Fixpoint trimStart (s : JsString) : JsString :=
  match s with
  | [] => []
  | c :: rest => if isWhiteSpace c then trimStart rest else s
  end.

Definition trimEnd (s : JsString) : JsString := rev (trimStart (rev s)).

(** [s.trim()] *)
Definition trim (s : JsString) : JsString := trimEnd (trimStart s).

(** Truthiness of a string: only the empty string is falsy. *)
Definition truthy (s : JsString) : bool :=
  match s with [] => false | _ :: _ => true end.

(** [s.replace(/\n/g, " ")] *)
Definition replaceNewlines (s : JsString) : JsString :=
  map (fun c => if c =? nl then space else c) s.

(** [s.substring(0, n)] *)
Definition substring0 (n : nat) (s : JsString) : JsString := firstn n s.

(** The values a decoded JSON field can hold, as far as [typeof] tells them
    apart; [VUndefined] is a missing field. *)
Inductive JsValue : Type :=
| VUndefined
| VNull
| VBool (b : bool)
| VNumber (n : Z)
| VString (s : JsString)
| VOther.

(** A decoded JSON object. *)
Definition JsObject : Type := list (string * JsValue).

(** [obj[key]] *)
Fixpoint get (key : string) (obj : JsObject) : JsValue :=
  match obj with
  | [] => VUndefined
  | (k, v) :: rest => if String.eqb k key then v else get key rest
  end.

(** What a [throw] carries.  [HttpsError] is the callable protocol's error
    with its status code; anything else is an [Error] with a message. *)
Inductive FunctionsErrorCode : Type := invalid_argument | internal.

Inductive Exn : Type :=
| Error (message : JsString)
| HttpsError (code : FunctionsErrorCode) (message : JsString).

(** [(error as any).message] *)
Definition message_of (e : Exn) : JsString :=
  match e with
  | Error m => m
  | HttpsError _ m => m
  end.

(** An async iterable consumed once by [for await]: it hands out its items
    one by one and then either ends or throws.  The sequence is finite. *)
Inductive Stream (A : Type) : Type :=
| Done
| Fail (e : Exn)
| Chunk (x : A) (rest : Stream A).

Arguments Done {A}.
Arguments Fail {A} e.
Arguments Chunk {A} x rest.

(** The items a stream hands out before it ends or throws. *)
Fixpoint items {A} (s : Stream A) : list A :=
  match s with
  | Done | Fail _ => []
  | Chunk x rest => x :: items rest
  end.

(** The error a stream ends with, if it throws. *)
Fixpoint failure {A} (s : Stream A) : option Exn :=
  match s with
  | Done => None
  | Fail e => Some e
  | Chunk _ rest => failure rest
  end.

(** A stream from its items and its end. *)
Fixpoint stream_of {A} (xs : list A) (stop : option Exn) : Stream A :=
  match xs with
  | [] => match stop with None => Done | Some e => Fail e end
  | x :: rest => Chunk x (stream_of rest stop)
  end.

End Js.

Import Js.

(** ** The text generator and the callable platform *)

Module Platform.

(** The model behind [ai]: [generate] resolves with the text of the
    response or rejects; [generateStream] returns at once a stream of chunk
    texts and the promise of the final response's text. *)
Record Producer : Type := {
  generate : JsString -> Exn + JsString;
  generateStream : JsString -> Stream JsString * (Exn + JsString)
}.

(** What a handler does that can be seen from outside, in program order. *)
Inductive Effect : Type :=
| Generate (prompt : JsString)
| GenerateStream (prompt : JsString)
| Yielded (text : JsString)
| SendChunk (partial : JsString)
| LogInfo (msg : string) (detail : JsString)
| LogError (msg : string) (err : Exn).

(** An async handler: the effects it performed and how it settled,
    [inl] for a thrown exception and [inr] for a returned value. *)
Definition M (A : Type) : Type := list Effect * (Exn + A).

Definition ret {A} (a : A) : M A := ([], inr a).

Definition throw {A} (e : Exn) : M A := ([], inl e).

Definition tell (ev : Effect) : M unit := ([ev], inr tt).

Definition bind {A B} (m : M A) (k : A -> M B) : M B :=
  match m with
  | (log, inl e) => (log, inl e)
  | (log, inr a) => let '(log', r) := k a in (log ++ log', r)
  end.

(** [try { m } catch (error) { handler error }] *)
Definition try_catch {A} (m : M A) (handler : Exn -> M A) : M A :=
  match m with
  | (log, inl e) => let '(log', r) := handler e in (log ++ log', r)
  | (log, inr a) => (log, inr a)
  end.

(** [await p] for a promise that is settled by the model *)
Definition await {A} (p : Exn + A) : M A := ([], p).

(** The request object the platform hands to an [onCall] handler, for a
    request whose [data] is a JSON object; module [Any] has the requests
    with any other [data]. *)
Record CallableRequest : Type := {
  data : JsObject;
  acceptsStreaming : bool
}.

(** The records of the callable protocol on the wire. *)
Inductive WireRecord (R : Type) : Type :=
| WMessage (partial : JsString)
| WResult (payload : R)
| WError (code : FunctionsErrorCode) (message : JsString).

Arguments WMessage {R} partial.
Arguments WResult {R} payload.
Arguments WError {R} code message.

Definition is_terminal {R} (r : WireRecord R) : bool :=
  match r with
  | WMessage _ => false
  | WResult _ | WError _ _ => true
  end.

Definition is_result {R} (r : WireRecord R) : bool :=
  match r with WResult _ => true | _ => false end.

Definition is_error {R} (r : WireRecord R) : bool :=
  match r with WError _ _ => true | _ => false end.

(** The chunks a handler passed to [sendChunk], in order. *)
Fixpoint sent (log : list Effect) : list JsString :=
  match log with
  | [] => []
  | SendChunk p :: rest => p :: sent rest
  | _ :: rest => sent rest
  end.

(** The prompts a handler called the producer with, in order; the flag
    tells [generateStream] from [generate]. *)
Fixpoint producer_calls (log : list Effect) : list (bool * JsString) :=
  match log with
  | [] => []
  | Generate p :: rest => (false, p) :: producer_calls rest
  | GenerateStream p :: rest => (true, p) :: producer_calls rest
  | _ :: rest => producer_calls rest
  end.

(** How the platform ends a call: a returned value is the result record, a
    thrown [HttpsError] is the error record with its code, and any other
    exception is reported as [internal]. *)
Definition terminal {R} (r : Exn + R) : WireRecord R :=
  match r with
  | inr v => WResult v
  | inl (HttpsError code msg) => WError code msg
  | inl (Error _) => WError internal (lit "INTERNAL")
  end.

(** The platform around a handler: chunks go out as message records when
    the client accepts streaming ([sendChunk] is a no-op otherwise), and
    the settled handler gives the one closing record. *)
Definition onCall {R} (handler : CallableRequest -> M R)
    (req : CallableRequest) : list (WireRecord R) :=
  let '(log, r) := handler req in
  (if acceptsStreaming req then map WMessage (sent log) else [])
  ++ [terminal r].

(** Modelled from the spec: the Client Call Adapter of section 4.3, which
    the web SDK provides ([httpsCallable] and its [stream] method).  The
    fragments view yields the message records in arrival order and the
    final future settles with the closing record. *)
Fixpoint fragments {R} (wire : list (WireRecord R)) : list JsString :=
  match wire with
  | [] => []
  | WMessage p :: rest => p :: fragments rest
  | _ :: rest => fragments rest
  end.

Fixpoint final {R} (wire : list (WireRecord R))
    : option (FunctionsErrorCode * JsString + R) :=
  match wire with
  | [] => None
  | WMessage _ :: rest => final rest
  | WResult v :: _ => Some (inr v)
  | WError code msg :: _ => Some (inl (code, msg))
  end.

End Platform.

Import Platform.

Declare Scope handler_scope.
Delimit Scope handler_scope with handler.
Notation "x <- m ;; k" := (bind m (fun x => k))
  (at level 100, m at level 99, k at level 200, right associativity)
  : handler_scope.
Notation "m ;; k" := (bind m (fun _ => k))
  (at level 100, k at level 200, right associativity) : handler_scope.

(** ** functions/src/index.ts *)

Module Server.

Local Open Scope handler_scope.

Definition prompt_head : JsString :=
  [nl]
  ++ lit "Transform the following straightforward text into verbose, jargon-filled "
  ++ [dq] ++ lit "corpspeak." ++ [dq] ++ [nl]
  ++ line "The goal is to make it sound like a high-level executive trying to be overly formal, indirect, and use as many buzzwords as possible."
  ++ line "Think about synergy, leveraging, paradigm shifts, value-add, core competencies, proactive engagement, deliverables, stakeholders, strategic alignment, etc."
  ++ line "Avoid being too nonsensical, but lean heavily into obfuscation and grandiosity."
  ++ line "Output ONLY the corpspeak version."
  ++ [nl]
  ++ line "Corpspeak transformation must be at least 5 sentences, ideally more, to conveny gravity of the matter."
  ++ [nl]
  ++ [nl]
  ++ lit "User's straightforward text: " ++ [dq].

Definition prompt_tail : JsString :=
  [dq] ++ [nl]
  ++ [nl]
  ++ line "Corpspeak Transformation:".

Definition createCorpspeakPrompt (userInput : JsString) : JsString :=
  prompt_head ++ userInput ++ prompt_tail.

Record Completion : Type := { completion : JsString }.

Definition invalid_prompt : Exn :=
  HttpsError invalid_argument
    (lit "The function must be called with a non-empty "
     ++ [dq] ++ lit "prompt" ++ [dq] ++ lit " string.").

(** [for await (const chunk of stream) res.sendChunk({partial: chunk.text})] *)
Fixpoint forward (stream : Stream JsString) : M unit :=
  match stream with
  | Done => ret tt
  | Fail e => throw e
  | Chunk text rest =>
      tell (Yielded text) ;;
      tell (SendChunk text) ;;
      forward rest
  end.

Definition streaming_branch (ai : Producer) (userInput fullPrompt : JsString)
    : M Completion :=
  tell (LogInfo "Streaming request accepted:" userInput) ;;
  try_catch
    (tell (GenerateStream fullPrompt) ;;
     let '(stream, response) := generateStream ai fullPrompt in
     forward stream ;;
     text <- await response ;;
     ret {| completion := text |})
    (fun error =>
       tell (LogError "Error during streaming generation:" error) ;;
       throw (HttpsError internal
                (lit "Streaming generation failed: " ++ message_of error))).

Definition non_streaming_branch (ai : Producer) (fullPrompt : JsString)
    : M Completion :=
  try_catch
    (tell (Generate fullPrompt) ;;
     text <- await (generate ai fullPrompt) ;;
     ret {| completion := text |})
    (fun error =>
       tell (LogError "Error during non-streaming generation:" error) ;;
       throw (HttpsError internal
                (lit "Non-streaming generation failed: " ++ message_of error))).

(** The handler passed to [onCall]. *)
Definition handler (ai : Producer) (req : CallableRequest) : M Completion :=
  match get "prompt" (data req) with
  | VString userInput =>
      if negb (truthy (trim userInput)) then throw invalid_prompt
      else
        let fullPrompt := createCorpspeakPrompt userInput in
        if acceptsStreaming req
        then streaming_branch ai userInput fullPrompt
        else non_streaming_branch ai fullPrompt
  | _ => throw invalid_prompt
  end.

Definition generateCorpspeak (ai : Producer) (req : CallableRequest)
    : list (WireRecord Completion) :=
  onCall (handler ai) req.

End Server.

(** ** The Genkit-flow variant of the function *)

Module Flow.

Local Open Scope handler_scope.

(** The same template literal as in [functions/src/index.ts]. *)
Definition createCorpspeakPrompt (userInput : JsString) : JsString :=
  Server.prompt_head ++ userInput ++ Server.prompt_tail.

Record Output : Type := { corpspeak : JsString }.

(** [inputSchema: z.object({ prompt: z.string().min(1) })]: the parsed
    prompt, or [None] when the input does not match. *)
Definition inputSchema (input : JsObject) : option JsString :=
  match get "prompt" input with
  | VString s => if (1 <=? length s)%nat then Some s else None
  | _ => None
  end.

(** The [for await] loop of the flow; [sendChunk] tells whether the flow
    was given a [sendChunk] callback. *)
Fixpoint forward (sendChunk : bool) (aiStream : Stream JsString) : M unit :=
  match aiStream with
  | Done => ret tt
  | Fail e => throw e
  | Chunk text rest =>
      tell (Yielded text) ;;
      let textChunk := trim (replaceNewlines text) in
      (if truthy textChunk
       then
         (if sendChunk then tell (SendChunk textChunk) else ret tt) ;;
         tell (LogInfo "Sent corpspeak chunk:"
                 (substring0 50 textChunk ++ lit "..."))
       else ret tt) ;;
      forward sendChunk rest
  end.

(** The body of [corpspeakGeneratorFlow], run on an input that passed the
    schema. *)
Definition flow_body (ai : Producer) (sendChunk : bool) (userInput : JsString)
    : M Output :=
  tell (LogInfo "Corpspeak flow received input:" userInput) ;;
  let fullPrompt := createCorpspeakPrompt userInput in
  tell (GenerateStream fullPrompt) ;;
  let '(aiStream, response) := generateStream ai fullPrompt in
  forward sendChunk aiStream ;;
  text <- await response ;;
  ret {| corpspeak := text |}.

Section WithValidationError.

(** What the flow runtime throws for an input that fails the schema. *)
Variable validationError : Exn.

(** [ai.defineFlow]: the input is checked against the schema before the
    body runs. *)
Definition corpspeakGeneratorFlow (ai : Producer) (sendChunk : bool)
    (input : JsObject) : M Output :=
  match inputSchema input with
  | Some userInput => flow_body ai sendChunk userInput
  | None => throw validationError
  end.

(** [onCallGenkit(..., corpspeakGeneratorFlow)] *)
Definition generateCorpspeak (ai : Producer) (sendChunk : bool)
    (req : CallableRequest) : list (WireRecord Output) :=
  onCall (fun req => corpspeakGeneratorFlow ai sendChunk (data req)) req.

End WithValidationError.

End Flow.

(** ** The web page script *)

Module Client.

Local Open Scope Z_scope.

(** An error caught on the page. *)
Record ClientError : Type := { name : JsString; message : JsString }.

(** [String(error)], as [Error.prototype.toString] builds it. *)
Definition String_of (error : ClientError) : JsString :=
  match name error, message error with
  | [], msg => msg
  | nm, [] => nm
  | nm, msg => nm ++ lit ": " ++ msg
  end.

(** [error.message || String(error)] *)
Definition describe (error : ClientError) : JsString :=
  if truthy (message error) then message error else String_of error.

Record Completion : Type := { completion : JsString }.
Record Partial : Type := { partial : JsString }.

(** The text of a timer element: ["TTFB: --- ms"], ["TTFB: Measuring..."]
    or ["TTFB: <duration> ms"], with the duration in clock units. *)
Inductive TimerText : Type :=
| TimerReset
| TimerMeasuring
| TimerStopped (duration : Z).

Inductive TimerStatus : Type := running | stopped | reset.

Inductive TimerDiv : Type := timerNonStreamingDiv | timerStreamingDiv.
Inductive OutputDiv : Type := outputNonStreamingDiv | outputStreamingDiv.

(** What the script does that the user or the network can see. *)
Inductive Action : Type :=
| Call (streaming : bool) (prompt : JsString)
| TimerWrite (timerDiv : TimerDiv) (text : TimerText)
| OutputWrite (outputDiv : OutputDiv) (text : JsString)
| SetLoading (isLoading : bool)
| ConsoleError (msg : string) (error : ClientError).

(** The module-level variables of the script, the text of the four
    elements it writes, the [disabled] state shared by the three buttons,
    and the journal of its actions (which the script never reads). *)
Record Page : Type := {
  nonStreamingStartTime : option Z;
  streamingStartTime : option Z;
  nonStreamingOpInProgress : bool;
  streamingOpInProgress : bool;
  outputNonStreaming : JsString;
  outputStreaming : JsString;
  timerNonStreaming : TimerText;
  timerStreaming : TimerText;
  disabled : bool;
  journal : list Action
}.

Definition set_nonStreamingStartTime (v : option Z) (pg : Page) : Page :=
  {| nonStreamingStartTime := v;
     streamingStartTime := streamingStartTime pg;
     nonStreamingOpInProgress := nonStreamingOpInProgress pg;
     streamingOpInProgress := streamingOpInProgress pg;
     outputNonStreaming := outputNonStreaming pg;
     outputStreaming := outputStreaming pg;
     timerNonStreaming := timerNonStreaming pg;
     timerStreaming := timerStreaming pg;
     disabled := disabled pg;
     journal := journal pg |}.

Definition set_streamingStartTime (v : option Z) (pg : Page) : Page :=
  {| nonStreamingStartTime := nonStreamingStartTime pg;
     streamingStartTime := v;
     nonStreamingOpInProgress := nonStreamingOpInProgress pg;
     streamingOpInProgress := streamingOpInProgress pg;
     outputNonStreaming := outputNonStreaming pg;
     outputStreaming := outputStreaming pg;
     timerNonStreaming := timerNonStreaming pg;
     timerStreaming := timerStreaming pg;
     disabled := disabled pg;
     journal := journal pg |}.

Definition set_nonStreamingOpInProgress (v : bool) (pg : Page) : Page :=
  {| nonStreamingStartTime := nonStreamingStartTime pg;
     streamingStartTime := streamingStartTime pg;
     nonStreamingOpInProgress := v;
     streamingOpInProgress := streamingOpInProgress pg;
     outputNonStreaming := outputNonStreaming pg;
     outputStreaming := outputStreaming pg;
     timerNonStreaming := timerNonStreaming pg;
     timerStreaming := timerStreaming pg;
     disabled := disabled pg;
     journal := journal pg |}.

Definition set_streamingOpInProgress (v : bool) (pg : Page) : Page :=
  {| nonStreamingStartTime := nonStreamingStartTime pg;
     streamingStartTime := streamingStartTime pg;
     nonStreamingOpInProgress := nonStreamingOpInProgress pg;
     streamingOpInProgress := v;
     outputNonStreaming := outputNonStreaming pg;
     outputStreaming := outputStreaming pg;
     timerNonStreaming := timerNonStreaming pg;
     timerStreaming := timerStreaming pg;
     disabled := disabled pg;
     journal := journal pg |}.

(** Every write to the page is also entered in the journal. *)
Definition record (a : Action) (pg : Page) : Page :=
  {| nonStreamingStartTime := nonStreamingStartTime pg;
     streamingStartTime := streamingStartTime pg;
     nonStreamingOpInProgress := nonStreamingOpInProgress pg;
     streamingOpInProgress := streamingOpInProgress pg;
     outputNonStreaming := outputNonStreaming pg;
     outputStreaming := outputStreaming pg;
     timerNonStreaming := timerNonStreaming pg;
     timerStreaming := timerStreaming pg;
     disabled := disabled pg;
     journal := journal pg ++ [a] |}.

(** [timerDiv.textContent = text] *)
Definition set_timer (timerDiv : TimerDiv) (text : TimerText) (pg : Page)
    : Page :=
  record (TimerWrite timerDiv text)
  {| nonStreamingStartTime := nonStreamingStartTime pg;
     streamingStartTime := streamingStartTime pg;
     nonStreamingOpInProgress := nonStreamingOpInProgress pg;
     streamingOpInProgress := streamingOpInProgress pg;
     outputNonStreaming := outputNonStreaming pg;
     outputStreaming := outputStreaming pg;
     timerNonStreaming :=
       match timerDiv with
       | timerNonStreamingDiv => text
       | timerStreamingDiv => timerNonStreaming pg
       end;
     timerStreaming :=
       match timerDiv with
       | timerNonStreamingDiv => timerStreaming pg
       | timerStreamingDiv => text
       end;
     disabled := disabled pg;
     journal := journal pg |}.

(** [outputDiv.textContent = text] *)
Definition set_output (outputDiv : OutputDiv) (text : JsString) (pg : Page)
    : Page :=
  record (OutputWrite outputDiv text)
  {| nonStreamingStartTime := nonStreamingStartTime pg;
     streamingStartTime := streamingStartTime pg;
     nonStreamingOpInProgress := nonStreamingOpInProgress pg;
     streamingOpInProgress := streamingOpInProgress pg;
     outputNonStreaming :=
       match outputDiv with
       | outputNonStreamingDiv => text
       | outputStreamingDiv => outputNonStreaming pg
       end;
     outputStreaming :=
       match outputDiv with
       | outputNonStreamingDiv => outputStreaming pg
       | outputStreamingDiv => text
       end;
     timerNonStreaming := timerNonStreaming pg;
     timerStreaming := timerStreaming pg;
     disabled := disabled pg;
     journal := journal pg |}.

(** [setLoading(isLoading)] sets [disabled] on the three buttons. *)
Definition setLoading (isLoading : bool) (pg : Page) : Page :=
  record (SetLoading isLoading)
  {| nonStreamingStartTime := nonStreamingStartTime pg;
     streamingStartTime := streamingStartTime pg;
     nonStreamingOpInProgress := nonStreamingOpInProgress pg;
     streamingOpInProgress := streamingOpInProgress pg;
     outputNonStreaming := outputNonStreaming pg;
     outputStreaming := outputStreaming pg;
     timerNonStreaming := timerNonStreaming pg;
     timerStreaming := timerStreaming pg;
     disabled := isLoading;
     journal := journal pg |}.

(** [updateTimerDisplay(timerDiv, startTimeValue, status)], called when
    [performance.now()] reads [now]. *)
Definition updateTimerDisplay (now : Z) (timerDiv : TimerDiv)
    (startTimeValue : option Z) (status : TimerStatus) (pg : Page) : Page :=
  match status, startTimeValue with
  | stopped, Some start => set_timer timerDiv (TimerStopped (now - start)) pg
  | running, _ => set_timer timerDiv TimerMeasuring pg
  | _, _ => set_timer timerDiv TimerReset pg
  end.

(** The code an async function runs between two [await]s; nothing else
    runs in between. *)
Definition Segment : Type := Page -> Page.

(** An async call: its segments in program order. *)
Definition Task : Type := list Segment.

Definition andThen (f g : Segment) : Segment := fun pg => g (f pg).

(** [if (cond) f] *)
Definition when (cond : Page -> bool) (f : Segment) : Segment :=
  fun pg => if cond pg then f pg else pg.

Definition skip : Segment := fun pg => pg.

Notation "f >> g" := (andThen f g) (at level 65, right associativity).

Definition run (task : Task) (pg : Page) : Page :=
  fold_left (fun pg seg => seg pg) task pg.

(** What an awaited promise settles with, and what [performance.now()]
    reads when the function resumes. *)
Definition Settled (A : Type) : Type := Z * (ClientError + A).

(** The [stream] of a streaming call as the [for await] loop sees it, each
    step with the clock reading at which the loop resumes. *)
Inductive ResultStream : Type :=
| Ends (t : Z)
| Throws (t : Z) (error : ClientError)
| Yields (t : Z) (chunkData : Partial) (rest : ResultStream).

(** What [await generateCorpspeak.stream({prompt})] gives. *)
Inductive StreamCall : Type :=
| Rejected (t : Z) (error : ClientError)
| Opened (resultStream : ResultStream) (dataPromise : Settled Completion).

Definition nonStreaming_stop (t : Z) : Segment :=
  when nonStreamingOpInProgress
    (fun pg =>
       updateTimerDisplay t timerNonStreamingDiv (nonStreamingStartTime pg)
         stopped pg).

Definition nonStreaming_finally : Segment :=
  set_nonStreamingOpInProgress false
  >> when (fun pg => negb (streamingOpInProgress pg)) (setLoading false).

(** [handleNonStreamingRequest(promptText)], started when the clock reads
    [now]. *)
Definition handleNonStreamingRequest (promptText : JsString) (now : Z)
    (reply : Settled Completion) : Task :=
  if negb (truthy (trim promptText))
  then [ when (fun pg => negb (streamingOpInProgress pg)) (setLoading false) ]
  else
    [ set_nonStreamingOpInProgress true
      >> set_output outputNonStreamingDiv
           (lit "Leveraging core competencies...")
      >> updateTimerDisplay now timerNonStreamingDiv None reset
      >> set_nonStreamingStartTime (Some now)
      >> (fun pg =>
            updateTimerDisplay now timerNonStreamingDiv
              (nonStreamingStartTime pg) running pg)
      >> record (Call false promptText);
      (let '(t, settled) := reply in
       match settled with
       | inr result =>
           nonStreaming_stop t
           >> set_output outputNonStreamingDiv (completion result)
       | inl error =>
           nonStreaming_stop t
           >> record (ConsoleError "Error non-streaming corpspeak:" error)
           >> set_output outputNonStreamingDiv
                (lit "Error: " ++ describe error)
       end)
      >> nonStreaming_finally ].

(** The local variables of one [handleStreamingRequest] call. *)
Record Locals : Type := {
  streamedContent : JsString;
  firstChunkReceived : bool
}.

Definition streaming_stop (t : Z) : Segment :=
  fun pg =>
    updateTimerDisplay t timerStreamingDiv (streamingStartTime pg) stopped pg.

Definition streaming_finally : Segment :=
  set_streamingOpInProgress false
  >> when (fun pg => negb (nonStreamingOpInProgress pg)) (setLoading false).

(** The [catch] block, entered at [t]. *)
Definition streaming_catch (t : Z) (l : Locals) (error : ClientError)
    : Segment :=
  when (fun pg => negb (firstChunkReceived l) && streamingOpInProgress pg)
    (streaming_stop t)
  >> record (ConsoleError "Error streaming corpspeak:" error)
  >> set_output outputStreamingDiv (lit "Error: " ++ describe error).

(** One round of the [for await] loop on [chunkData], received at [t]: the
    new values of the locals and what the round does to the page. *)
Definition loop_body (t : Z) (chunkData : Partial) (l : Locals)
    : Locals * Segment :=
  let first := negb (firstChunkReceived l) && truthy (partial chunkData) in
  let l1 :=
    if first
    then {| streamedContent := streamedContent l;
            firstChunkReceived := true |}
    else l in
  let l2 :=
    if truthy (partial chunkData)
    then {| streamedContent := streamedContent l1 ++ partial chunkData;
            firstChunkReceived := firstChunkReceived l1 |}
    else l1 in
  (l2,
   (if first then streaming_stop t else skip)
   >> set_output outputStreamingDiv (trim (streamedContent l2))).

(** The code after the loop, up to [await dataPromise]. *)
Definition after_loop (t : Z) (l : Locals) : Segment :=
  when (fun pg => negb (firstChunkReceived l) && streamingOpInProgress pg)
    (streaming_stop t).

(** From [await dataPromise] to the end of the function. *)
Definition on_data (l : Locals) (dataPromise : Settled Completion)
    : Segment :=
  (let '(t, settled) := dataPromise in
   match settled with
   | inr finalResult =>
       set_output outputStreamingDiv
         (trim (streamedContent l)
          ++ [nl] ++ lit "(Final object: " ++ completion finalResult
          ++ lit ")")
   | inl error => streaming_catch t l error
   end)
  >> streaming_finally.

(** The loop and what follows it. *)
Fixpoint consume (l : Locals) (resultStream : ResultStream)
    (dataPromise : Settled Completion) : Task :=
  match resultStream with
  | Yields t chunkData rest =>
      let '(l', round) := loop_body t chunkData l in
      round :: consume l' rest dataPromise
  | Ends t => [after_loop t l; on_data l dataPromise]
  | Throws t error => [streaming_catch t l error >> streaming_finally]
  end.

Definition fresh : Locals :=
  {| streamedContent := []; firstChunkReceived := false |}.

(** [handleStreamingRequest(promptText)], started when the clock reads
    [now]. *)
Definition handleStreamingRequest (promptText : JsString) (now : Z)
    (reply : StreamCall) : Task :=
  if negb (truthy (trim promptText))
  then
    [ when (fun pg => negb (nonStreamingOpInProgress pg)) (setLoading false) ]
  else
    (set_streamingOpInProgress true
     >> set_output outputStreamingDiv
          (lit "Initiating proactive synergy stream...")
     >> updateTimerDisplay now timerStreamingDiv None reset
     >> set_streamingStartTime (Some now)
     >> (fun pg =>
           updateTimerDisplay now timerStreamingDiv (streamingStartTime pg)
             running pg)
     >> record (Call true promptText))
    :: match reply with
       | Rejected t error =>
           [ streaming_catch t fresh error >> streaming_finally ]
       | Opened resultStream dataPromise =>
           set_output outputStreamingDiv (streamedContent fresh)
           :: consume fresh resultStream dataPromise
       end.

(** The click handler of the lucky button, before it calls the two request
    handlers: both displays are reset, the buttons disabled and both flags
    cleared. *)
Definition lucky_prelude (now : Z) : Segment :=
  set_output outputNonStreamingDiv (lit "(Awaiting strategic imperatives...)")
  >> updateTimerDisplay now timerNonStreamingDiv None reset
  >> set_output outputStreamingDiv
       (lit "(Preparing for dynamic paradigm shifts...)")
  >> updateTimerDisplay now timerStreamingDiv None reset
  >> setLoading true
  >> set_nonStreamingOpInProgress false
  >> set_streamingOpInProgress false.


(** The durations written to the streaming timer, in order. *)
Fixpoint ttfb_marks (acts : list Action) : list Z :=
  match acts with
  | [] => []
  | TimerWrite timerStreamingDiv (TimerStopped d) :: rest =>
      d :: ttfb_marks rest
  | _ :: rest => ttfb_marks rest
  end.

(** The network calls issued, in order. *)
Fixpoint calls (acts : list Action) : list (bool * JsString) :=
  match acts with
  | [] => []
  | Call streaming prompt :: rest => (streaming, prompt) :: calls rest
  | _ :: rest => calls rest
  end.

(** When the first chunk of a stream arrives, and when the first chunk with
    a non-empty [partial] does. *)
Definition first_fragment (s : ResultStream) : option Z :=
  match s with
  | Yields t _ _ => Some t
  | _ => None
  end.

Fixpoint first_text (s : ResultStream) : option Z :=
  match s with
  | Yields t chunkData rest =>
      if truthy (partial chunkData) then Some t else first_text rest
  | _ => None
  end.

(** When the stream ends or throws. *)
Fixpoint closes (s : ResultStream) : Z :=
  match s with
  | Ends t | Throws t _ => t
  | Yields _ _ rest => closes rest
  end.

Fixpoint ends_normally (s : ResultStream) : bool :=
  match s with
  | Ends _ => true
  | Throws _ _ => false
  | Yields _ _ rest => ends_normally rest
  end.

(** The chunks of a stream, in order. *)
Fixpoint chunks (s : ResultStream) : list Partial :=
  match s with
  | Yields _ chunkData rest => chunkData :: chunks rest
  | _ => []
  end.

(** The clock readings of a streaming call, in program order. *)
Fixpoint stream_times (s : ResultStream) : list Z :=
  match s with
  | Ends t | Throws t _ => [t]
  | Yields t _ rest => t :: stream_times rest
  end.

Definition call_times (reply : StreamCall) : list Z :=
  match reply with
  | Rejected t _ => [t]
  | Opened s (t, _) => stream_times s ++ [t]
  end.

End Client.

(** ** Vocabulary of the properties *)

Module Props.


(** The prompt of a request that passes the check of [index.ts]. *)
Definition valid_prompt (req : CallableRequest) : option JsString :=
  match get "prompt" (data req) with
  | VString s => if truthy (trim s) then Some s else None
  | _ => None
  end.

(** How a streaming generation ends: with the error its stream throws, or
    else with what its response promise settles with. *)
Definition stream_result (r : Stream JsString * (Exn + JsString))
    : Exn + JsString :=
  match failure (fst r) with
  | Some e => inl e
  | None => snd r
  end.

(** What the producer finally gives for a prompt in either mode. *)
Definition produce (ai : Producer) (streaming : bool) (prompt : JsString)
    : Exn + JsString :=
  if streaming then stream_result (generateStream ai prompt)
  else generate ai prompt.

Definition succeeded {E A} (r : E + A) : bool :=
  match r with inr _ => true | inl _ => false end.

Definition terminal_count {R} (wire : list (WireRecord R)) : nat :=
  length (List.filter is_terminal wire).

Definition result_count {R} (wire : list (WireRecord R)) : nat :=
  length (List.filter is_result wire).

Definition error_count {R} (wire : list (WireRecord R)) : nat :=
  length (List.filter is_error wire).

(** The wire carries message records and then one closing record. *)
Definition closed {R} (wire : list (WireRecord R)) : Prop :=
  exists msgs t, wire = map WMessage msgs ++ [t] /\ is_terminal t = true.

(** One loop round per chunk: the chunk is received and sent on at once. *)
Definition rounds (texts : list JsString) : list Effect :=
  flat_map (fun text => [Yielded text; SendChunk text]) texts.

(** The chunk clean-up of the Genkit flow. *)
Definition normalize (text : JsString) : JsString :=
  trim (replaceNewlines text).

(** One loop round of the flow per chunk. *)
Definition flow_rounds (sendChunk : bool) (texts : list JsString)
    : list Effect :=
  flat_map
    (fun text =>
       Yielded text
       :: (if truthy (normalize text)
           then (if sendChunk then [SendChunk (normalize text)] else [])
                ++ [LogInfo "Sent corpspeak chunk:"
                      (substring0 50 (normalize text) ++ lit "...")]
           else []))
    texts.


(** The request is accepted and the producer does not fail on it. *)
Definition serves (ai : Producer) (req : CallableRequest) : bool :=
  match valid_prompt req with
  | Some userInput =>
      succeeded (produce ai (acceptsStreaming req)
                   (Server.createCorpspeakPrompt userInput))
  | None => false
  end.

Definition flow_serves (ai : Producer) (req : CallableRequest) : bool :=
  match Flow.inputSchema (data req) with
  | Some userInput =>
      succeeded (produce ai true (Flow.createCorpspeakPrompt userInput))
  | None => false
  end.

(** The chunks the producer hands to the flow for a request. *)
Definition flow_produced (ai : Producer) (req : CallableRequest)
    : list JsString :=
  match Flow.inputSchema (data req) with
  | Some userInput =>
      items (fst (generateStream ai (Flow.createCorpspeakPrompt userInput)))
  | None => []
  end.

(** The completion text a finished call delivers, if it delivers one. *)
Definition completion_text (wire : list (WireRecord Server.Completion))
    : option JsString :=
  match final wire with
  | Some (inr c) => Some (Server.completion c)
  | _ => None
  end.

Definition request (prompt : JsString) (streaming : bool) : CallableRequest :=
  {| data := [("prompt"%string, VString prompt)];
     acceptsStreaming := streaming |}.

(** The producer of the scenario of section 8: three fragments, then the
    full sentence. *)
Definition scenario_fragments : list JsString :=
  [lit "Per "; lit "our "; lit "strategic review, "].

Definition scenario_final : JsString :=
  lit "Per our strategic review, the infrastructure requires urgent remediation.".

Definition scenario_ai : Producer :=
  {| generate := fun _ => inr scenario_final;
     generateStream := fun _ =>
       (stream_of scenario_fragments None, inr scenario_final) |}.

(** A producer whose stream hands out the given chunks and ends. *)
Definition scripted (texts : list JsString) (full : JsString) : Producer :=
  {| generate := fun _ => inr full;
     generateStream := fun _ => (stream_of texts None, inr full) |}.

(** A producer that fails after the given chunks. *)
Definition failing (texts : list JsString) (e : Exn) : Producer :=
  {| generate := fun _ => inl e;
     generateStream := fun _ => (stream_of texts (Some e), inl e) |}.

(** The page as it is loaded. *)
Definition initial_page : Client.Page :=
  {| Client.nonStreamingStartTime := None;
     Client.streamingStartTime := None;
     Client.nonStreamingOpInProgress := false;
     Client.streamingOpInProgress := false;
     Client.outputNonStreaming := lit "(Awaiting strategic imperatives...)";
     Client.outputStreaming :=
       lit "(Preparing for dynamic paradigm shifts...)";
     Client.timerNonStreaming := Client.TimerReset;
     Client.timerStreaming := Client.TimerReset;
     Client.disabled := false;
     Client.journal := [] |}.

(** The durations the loop and what follows it write to the streaming
    timer, for a call started at [start]; [received] is the value of
    [firstChunkReceived] at the head of the loop. *)
Definition loop_marks (received : bool) (s : Client.ResultStream)
    (dataPromise : Client.Settled Client.Completion) (start : Z) : list Z :=
  if received then []
  else
    match Client.first_text s with
    | Some t => [t - start]%Z
    | None =>
        (Client.closes s - start)%Z
        :: (if Client.ends_normally s && negb (succeeded (snd dataPromise))
            then [(fst dataPromise - start)%Z]
            else [])
    end.

(** A streaming reply whose first fragment has an empty text: fragments at
    5 and 9, end of stream at 12, final result at 13. *)
Definition late_text_reply : Client.StreamCall :=
  Client.Opened
    (Client.Yields 5 {| Client.partial := [] |}
       (Client.Yields 9 {| Client.partial := lit "Hi" |} (Client.Ends 12)))
    (13%Z, inr {| Client.completion := lit "Hi there." |}).

(** The streaming reply of the scenario of section 8, with its fragments
    at 3, 4 and 6. *)
Definition scenario_reply : Client.StreamCall :=
  Client.Opened
    (Client.Yields 3 {| Client.partial := lit "Per " |}
       (Client.Yields 4 {| Client.partial := lit "our " |}
          (Client.Yields 6 {| Client.partial := lit "strategic review, " |}
             (Client.Ends 8))))
    (9%Z, inr {| Client.completion := scenario_final |}).

(** The value of [streamedContent] after each round of the loop. *)
Fixpoint build_up (l : Client.Locals) (s : Client.ResultStream)
    : list JsString :=
  match s with
  | Client.Yields t chunkData rest =>
      let l' := fst (Client.loop_body t chunkData l) in
      Client.streamedContent l' :: build_up l' rest
  | _ => []
  end.

(** Each text extends the one before. *)
Fixpoint growing (prev : JsString) (texts : list JsString) : Prop :=
  match texts with
  | [] => True
  | text :: rest => prev `prefix_of` text /\ growing text rest
  end.

(** The texts written to the streaming output, in order. *)
Fixpoint shown (acts : list Client.Action) : list JsString :=
  match acts with
  | [] => []
  | Client.OutputWrite Client.outputStreamingDiv text :: rest =>
      text :: shown rest
  | _ :: rest => shown rest
  end.

(** Whether an action belongs to the streaming or to the non-streaming
    call; [setLoading] and the console belong to neither. *)
Definition own (streaming : bool) (a : Client.Action) : bool :=
  match a with
  | Client.Call s _ => Bool.eqb s streaming
  | Client.TimerWrite Client.timerStreamingDiv _ => streaming
  | Client.TimerWrite Client.timerNonStreamingDiv _ => negb streaming
  | Client.OutputWrite Client.outputStreamingDiv _ => streaming
  | Client.OutputWrite Client.outputNonStreamingDiv _ => negb streaming
  | _ => false
  end.

(** What belongs to one call on the page: its start-time marker, its
    in-flight flag, its output and timer elements, and its actions. *)
Record View : Type := {
  startTime : option Z;
  opInProgress : bool;
  output : JsString;
  timer : Client.TimerText;
  actions : list Client.Action
}.

Definition view (streaming : bool) (pg : Client.Page) : View :=
  if streaming
  then {| startTime := Client.streamingStartTime pg;
          opInProgress := Client.streamingOpInProgress pg;
          output := Client.outputStreaming pg;
          timer := Client.timerStreaming pg;
          actions := List.filter (own true) (Client.journal pg) |}
  else {| startTime := Client.nonStreamingStartTime pg;
          opInProgress := Client.nonStreamingOpInProgress pg;
          output := Client.outputNonStreaming pg;
          timer := Client.timerNonStreaming pg;
          actions := List.filter (own false) (Client.journal pg) |}.





End Props.

Import Props.

(** ** The event listeners of the page *)

Module Ui.

Import Client.

Definition samplePrompts : list JsString :=
  [ lit "We need to fix this bug quickly.";
    lit "Let's have a meeting to discuss the new marketing plan.";
    lit "The website is slow.";
    lit "Our sales numbers are down this quarter.";
    lit "We should hire more developers.";
    lit "Can you send me the report?";
    lit "The coffee machine is broken again.";
    lit "We need to cut costs.";
    lit "Let's brainstorm some new ideas for the product.";
    lit "The customer is unhappy with the service." ].

(** The page with the text of the input area and the async calls in
    flight, each with the segments it has still to run. *)
Record State : Type := {
  page : Page;
  userInput : JsString;
  inFlight : list Task
}.

Definition on_page (f : Segment) (st : State) : State :=
  {| page := f (page st); userInput := userInput st; inFlight := inFlight st |}.

(** Calling an async function: it runs up to its first [await] at once,
    and what is left of it, if anything, is in flight. *)
Definition start (task : Task) (st : State) : State :=
  match task with
  | [] => st
  | seg :: rest =>
      {| page := seg (page st);
         userInput := userInput st;
         inFlight := inFlight st ++ match rest with [] => [] | _ => [rest] end |}
  end.

(** [nonStreamingOpInProgress || streamingOpInProgress] *)
Definition busy (pg : Page) : bool :=
  nonStreamingOpInProgress pg || streamingOpInProgress pg.

(** The click listener of [btnNonStreaming]; [now] and [reply] are what
    the call it starts will read from the clock and get from the network. *)
Definition btnNonStreaming_click (now : Z) (reply : Settled Completion)
    (st : State) : State :=
  if busy (page st) then st
  else
    start (handleNonStreamingRequest (userInput st) now reply)
      (on_page (setLoading true) st).

(** The click listener of [btnStreaming]. *)
Definition btnStreaming_click (now : Z) (reply : StreamCall) (st : State)
    : State :=
  if busy (page st) then st
  else
    start (handleStreamingRequest (userInput st) now reply)
      (on_page (setLoading true) st).

(** The click listener of [btnImFeelingLucky], for the index that
    [Math.floor(Math.random() * samplePrompts.length)] gives.  The message
    it writes with [console.log] when busy is not recorded.  Past the end
    of the table the prompt is [undefined]: the input area shows
    ["undefined"] and both handlers throw on [promptText.trim()] before
    they do anything. *)
Definition btnImFeelingLucky_click (randomIndex : nat)
    (plainNow streamNow : Z) (plainReply : Settled Completion)
    (streamReply : StreamCall) (st : State) : State :=
  if busy (page st) then st
  else
    match nth_error samplePrompts randomIndex with
    | Some luckyPrompt =>
        start (handleStreamingRequest luckyPrompt streamNow streamReply)
          (start (handleNonStreamingRequest luckyPrompt plainNow plainReply)
             {| page := lucky_prelude plainNow (page st);
                userInput := luckyPrompt;
                inFlight := inFlight st |})
    | None =>
        {| page := lucky_prelude plainNow (page st);
           userInput := lit "undefined";
           inFlight := inFlight st |}
    end.

(** The call at position [i] of those in flight runs its next segment, and
    leaves the list when that was its last. *)
Definition resume (i : nat) (st : State) : State :=
  match nth_error (inFlight st) i with
  | Some (seg :: rest) =>
      {| page := seg (page st);
         userInput := userInput st;
         inFlight :=
           match rest with
           | [] => firstn i (inFlight st) ++ skipn (S i) (inFlight st)
           | _ => firstn i (inFlight st) ++ rest :: skipn (S i) (inFlight st)
           end |}
  | _ => st
  end.

(** What can happen to the page: the user edits the input area or clicks a
    button, or a call in flight gets what it was waiting for. *)
Inductive Event : Type :=
| Typed (value : JsString)
| ClickNonStreaming (now : Z) (reply : Settled Completion)
| ClickStreaming (now : Z) (reply : StreamCall)
| ClickLucky (randomIndex : nat) (plainNow streamNow : Z)
    (plainReply : Settled Completion) (streamReply : StreamCall)
| Resume (i : nat).

Definition step (st : State) (ev : Event) : State :=
  match ev with
  | Typed value =>
      {| page := page st; userInput := value; inFlight := inFlight st |}
  | ClickNonStreaming now reply => btnNonStreaming_click now reply st
  | ClickStreaming now reply => btnStreaming_click now reply st
  | ClickLucky randomIndex plainNow streamNow plainReply streamReply =>
      btnImFeelingLucky_click randomIndex plainNow streamNow plainReply
        streamReply st
  | Resume i => resume i st
  end.

Definition run_events (st : State) (evs : list Event) : State :=
  fold_left step evs st.

End Ui.

(** ** Vocabulary of the further properties *)

Module More.

(** The page as it is loaded, with an empty input area and no call in
    flight. *)
Definition loaded : Ui.State :=
  {| Ui.page := initial_page; Ui.userInput := []; Ui.inFlight := [] |}.

(** The index of a lucky click is one [Math.floor(Math.random() * n)] can
    give for the [n] prompts of the table. *)
Definition in_range (ev : Ui.Event) : Prop :=
  match ev with
  | Ui.ClickLucky randomIndex _ _ _ _ =>
      (randomIndex < length Ui.samplePrompts)%nat
  | _ => True
  end.

(** A segment that leaves both flags and the buttons alone. *)
Definition quiet (f : Client.Segment) : Prop :=
  forall pg,
    Client.nonStreamingOpInProgress (f pg) = Client.nonStreamingOpInProgress pg
    /\ Client.streamingOpInProgress (f pg) = Client.streamingOpInProgress pg
    /\ Client.disabled (f pg) = Client.disabled pg.

(** A segment that sets the flag of its call and nothing else of these. *)
Definition raises (streaming : bool) (f : Client.Segment) : Prop :=
  forall pg,
    Client.nonStreamingOpInProgress (f pg)
      = (if streaming then Client.nonStreamingOpInProgress pg else true)
    /\ Client.streamingOpInProgress (f pg)
       = (if streaming then true else Client.streamingOpInProgress pg)
    /\ Client.disabled (f pg) = Client.disabled pg.

(** A segment that clears the flag of its call and enables the buttons
    when the other call is not in flight. *)
Definition clears (streaming : bool) (f : Client.Segment) : Prop :=
  forall pg,
    Client.nonStreamingOpInProgress (f pg)
      = (if streaming then Client.nonStreamingOpInProgress pg else false)
    /\ Client.streamingOpInProgress (f pg)
       = (if streaming then false else Client.streamingOpInProgress pg)
    /\ Client.disabled (f pg)
       = (if (if streaming then Client.nonStreamingOpInProgress pg
              else Client.streamingOpInProgress pg)
          then Client.disabled pg else false).

(** What is left of a started call: quiet segments, then the one that
    clears its flag. *)
Inductive Winding (streaming : bool) : Client.Task -> Prop :=
| winding_last f : clears streaming f -> Winding streaming [f]
| winding_more f rest :
    quiet f -> Winding streaming rest -> Winding streaming (f :: rest).

(** The calls in flight, against the two flags: none, the plain one, the
    streamed one, or both. *)
Inductive InFlight : bool -> bool -> list Client.Task -> Prop :=
| none_in_flight : InFlight false false []
| plain_in_flight t : Winding false t -> InFlight true false [t]
| streamed_in_flight t : Winding true t -> InFlight false true [t]
| both_in_flight ta tb :
    Winding false ta -> Winding true tb -> InFlight true true [ta; tb].

(** The buttons are disabled exactly while a flag is set, and the flags
    say which calls are in flight. *)
Definition Consistent (st : Ui.State) : Prop :=
  Client.disabled (Ui.page st) = Ui.busy (Ui.page st)
  /\ InFlight (Client.nonStreamingOpInProgress (Ui.page st))
       (Client.streamingOpInProgress (Ui.page st)) (Ui.inFlight st).

(** The previews the flow logs for the chunks it sends. *)
Fixpoint previews (log : list Effect) : list JsString :=
  match log with
  | [] => []
  | LogInfo msg detail :: rest =>
      if String.eqb msg "Sent corpspeak chunk:"
      then detail :: previews rest
      else previews rest
  | _ :: rest => previews rest
  end.

(** The errors a handler logged with [logger.error]. *)
Fixpoint logged_errors (log : list Effect) : list Exn :=
  match log with
  | [] => []
  | LogError _ e :: rest => e :: logged_errors rest
  | _ :: rest => logged_errors rest
  end.


(** The error a stream throws, if it does. *)
Fixpoint thrown (s : Client.ResultStream) : option Client.ClientError :=
  match s with
  | Client.Ends _ => None
  | Client.Throws _ error => Some error
  | Client.Yields _ _ rest => thrown rest
  end.

(** The text a streaming call leaves in its output once it has ended: the
    trimmed fragments with the final object, or the error that ended it. *)
Definition streamed_text (reply : Client.StreamCall) : JsString :=
  match reply with
  | Client.Rejected _ error => lit "Error: " ++ Client.describe error
  | Client.Opened s (_, settled) =>
      match thrown s, settled with
      | Some error, _ => lit "Error: " ++ Client.describe error
      | None, inl error => lit "Error: " ++ Client.describe error
      | None, inr finalResult =>
          trim (concat (map Client.partial (Client.chunks s)))
          ++ [nl] ++ lit "(Final object: "
          ++ Client.completion finalResult ++ lit ")"
      end
  end.

(** The clicks on the three buttons. *)
Definition is_click (ev : Ui.Event) : bool :=
  match ev with
  | Ui.ClickNonStreaming _ _ | Ui.ClickStreaming _ _
  | Ui.ClickLucky _ _ _ _ _ => true
  | _ => false
  end.

(** No call is in flight. *)
Definition idle (st : Ui.State) : bool :=
  match Ui.inFlight st with [] => true | _ :: _ => false end.

(** The segments the calls in flight have still to run. *)
Definition pending (st : Ui.State) : nat :=
  length (concat (Ui.inFlight st)).

End More.

Import More.

(** ** Requests with any data *)

Module Any.

(** The decoded [data] of a request: a JSON object or any other value. *)
Inductive Data : Type :=
| Object (fields : JsObject)
| Scalar (v : JsValue).

Record Request : Type := {
  data : Data;
  acceptsStreaming : bool
}.

(** [req.data.prompt]: reading a property of [null] or [undefined] throws a
    [TypeError]; any other value that is not an object has no [prompt]. *)
Definition prompt (d : Data) : Exn + JsValue :=
  match d with
  | Object fields => inr (get "prompt" fields)
  | Scalar VNull =>
      inl (Error (lit "Cannot read properties of null (reading 'prompt')"))
  | Scalar VUndefined =>
      inl (Error
             (lit "Cannot read properties of undefined (reading 'prompt')"))
  | Scalar _ => inr VUndefined
  end.

(** The fields of the data; a value that is not an object has none. *)
Definition fields_of (d : Data) : JsObject :=
  match d with
  | Object fields => fields
  | Scalar _ => []
  end.

(** The request as [Server.handler] takes it, once [req.data.prompt] has
    been read without a throw. *)
Definition as_object (req : Request) : CallableRequest :=
  {| Platform.data := fields_of (data req);
     Platform.acceptsStreaming := acceptsStreaming req |}.

(** The handler of [index.ts] on any request.  Its first statement reads
    [req.data.prompt], which throws when the data is [null]; the exception
    leaves the handler, whose checks and [try] blocks come after. *)
Definition handler (ai : Producer) (req : Request) : M Server.Completion :=
  match prompt (data req) with
  | inl typeError => throw typeError
  | inr _ => Server.handler ai (as_object req)
  end.

(** [onCall] on any request, as [Platform.onCall]. *)
Definition generateCorpspeak (ai : Producer) (req : Request)
    : list (WireRecord Server.Completion) :=
  let '(log, r) := handler ai req in
  (if acceptsStreaming req then map WMessage (sent log) else [])
  ++ [terminal r].

(** The schema of the flow on any data: [z.object] refuses what is not an
    object. *)
Definition inputSchema (input : Data) : option JsString :=
  match input with
  | Object fields => Flow.inputSchema fields
  | Scalar _ => None
  end.

Section WithValidationError.

Variable validationError : Exn.

Definition corpspeakGeneratorFlow (ai : Producer) (sendChunk : bool)
    (input : Data) : M Flow.Output :=
  match inputSchema input with
  | Some userInput => Flow.flow_body ai sendChunk userInput
  | None => throw validationError
  end.


End WithValidationError.

End Any.

(** ** Vocabulary for requests with any data and for two calls together *)

Module Wide.

(** The prompt a request carries: the [prompt] field of its data, or
    nothing when the data is not an object. *)
Definition prompt_field (d : Any.Data) : JsValue :=
  match d with
  | Any.Object fields => get "prompt" fields
  | Any.Scalar _ => VUndefined
  end.







End Wide.

Import Wide.

Arguments lit : simpl never.
Arguments Server.createCorpspeakPrompt : simpl never.
Arguments Flow.createCorpspeakPrompt : simpl never.

(** ** Strings *)

Section TrimFacts.

Lemma trimStart_split (s : JsString) :
  exists ws, s = ws ++ trimStart s /\ forallb isWhiteSpace ws = true.
Proof.
  induction s as [|c s IH]; simpl.
  - exists []. split; reflexivity.
  - destruct (isWhiteSpace c) eqn:Hc.
    + destruct IH as (ws & Heq & Hws).
      exists (c :: ws). simpl. rewrite Hc, Hws. split; [| reflexivity].
      f_equal. exact Heq.
    + exists []. split; reflexivity.
Qed.

Lemma trimStart_head (s : JsString) (c : N) (rest : JsString) :
  trimStart s = c :: rest -> isWhiteSpace c = false.
Proof.
  induction s as [|d s IH]; simpl; [discriminate |].
  destruct (isWhiteSpace d) eqn:Hd; [exact IH |].
  intros H. injection H as -> _. exact Hd.
Qed.

Lemma trimStart_Forall (P : N -> Prop) (s : JsString) :
  Forall P s -> Forall P (trimStart s).
Proof.
  intros H. destruct (trimStart_split s) as (ws & Heq & _).
  rewrite Heq in H. apply Forall_app in H. apply H.
Qed.

Lemma trimEnd_Forall (P : N -> Prop) (s : JsString) :
  Forall P s -> Forall P (trimEnd s).
Proof.
  intros H. unfold trimEnd. apply Forall_rev, trimStart_Forall, Forall_rev, H.
Qed.

Lemma trim_Forall (P : N -> Prop) (s : JsString) :
  Forall P s -> Forall P (trim s).
Proof. intros H. apply trimEnd_Forall, trimStart_Forall, H. Qed.

Lemma replaceNewlines_no_nl (s : JsString) :
  Forall (fun c => c <> nl) (replaceNewlines s).
Proof.
  unfold replaceNewlines. apply Forall_map, Forall_forall. intros c _.
  simpl. destruct (N.eqb_spec c nl) as [_ | Hne]; [discriminate | exact Hne].
Qed.

Lemma truthy_true (s : JsString) : truthy s = true <-> s <> [].
Proof. destruct s; simpl; split; congruence. Qed.

Lemma truthy_false (s : JsString) : truthy s = false <-> s = [].
Proof. destruct s; simpl; split; congruence. Qed.

End TrimFacts.

(** ** The handler monad and the platform *)

Section PlatformFacts.

Context {R : Type}.

Lemma sent_app (l1 l2 : list Effect) : sent (l1 ++ l2) = sent l1 ++ sent l2.
Proof.
  induction l1 as [|ev l1 IH]; simpl; [reflexivity |].
  destruct ev; simpl; rewrite IH; reflexivity.
Qed.

Lemma producer_calls_app (l1 l2 : list Effect) :
  producer_calls (l1 ++ l2) = producer_calls l1 ++ producer_calls l2.
Proof.
  induction l1 as [|ev l1 IH]; simpl; [reflexivity |].
  destruct ev; simpl; rewrite IH; reflexivity.
Qed.

Lemma sent_rounds (texts : list JsString) : sent (rounds texts) = texts.
Proof. induction texts as [|x xs IH]; simpl; [| rewrite IH]; reflexivity. Qed.

Lemma producer_calls_rounds (texts : list JsString) :
  producer_calls (rounds texts) = [].
Proof. induction texts as [|x xs IH]; simpl; [reflexivity | exact IH]. Qed.

Lemma fragments_app (w1 w2 : list (WireRecord R)) :
  fragments (w1 ++ w2) = fragments w1 ++ fragments w2.
Proof.
  induction w1 as [|r w1 IH]; simpl; [reflexivity |].
  destruct r; simpl; rewrite IH; reflexivity.
Qed.

Lemma fragments_messages (msgs : list JsString) :
  fragments (map (@WMessage R) msgs) = msgs.
Proof. induction msgs as [|m ms IH]; simpl; [| rewrite IH]; reflexivity. Qed.

Lemma final_messages (msgs : list JsString) (rest : list (WireRecord R)) :
  final (map WMessage msgs ++ rest) = final rest.
Proof. induction msgs as [|m ms IH]; simpl; [reflexivity | exact IH]. Qed.

Lemma filter_messages (f : WireRecord R -> bool) (msgs : list JsString) :
  (forall p, f (WMessage p) = false) ->
  List.filter f (map WMessage msgs) = [].
Proof.
  intros Hf. induction msgs as [|m ms IH]; simpl; [reflexivity |].
  rewrite Hf. exact IH.
Qed.

Lemma terminal_is_terminal (r : Exn + R) : is_terminal (terminal r) = true.
Proof. destruct r as [[m | code m] | v]; reflexivity. Qed.

Lemma terminal_is_result (r : Exn + R) :
  is_result (terminal r) = succeeded r.
Proof. destruct r as [[m | code m] | v]; reflexivity. Qed.

Lemma terminal_is_error (r : Exn + R) :
  is_error (terminal r) = negb (succeeded r).
Proof. destruct r as [[m | code m] | v]; reflexivity. Qed.

Lemma fragments_terminal (r : Exn + R) : fragments [terminal r] = [].
Proof. destruct r as [[m | code m] | v]; reflexivity. Qed.

(** Whatever the handler does, the platform closes the call once. *)
Lemma onCall_wire (h : CallableRequest -> M R) (req : CallableRequest) :
  onCall h req =
    map WMessage (if acceptsStreaming req then sent (fst (h req)) else [])
    ++ [terminal (snd (h req))].
Proof.
  unfold onCall. destruct (h req) as [log r]. simpl.
  destruct (acceptsStreaming req); reflexivity.
Qed.

Lemma onCall_closed (h : CallableRequest -> M R) (req : CallableRequest) :
  closed (onCall h req).
Proof.
  rewrite onCall_wire. eexists _, _. split; [reflexivity |].
  apply terminal_is_terminal.
Qed.

Lemma onCall_counts (h : CallableRequest -> M R) (req : CallableRequest) :
  terminal_count (onCall h req) = 1%nat
  /\ result_count (onCall h req) = (if succeeded (snd (h req)) then 1 else 0)%nat
  /\ error_count (onCall h req) = (if succeeded (snd (h req)) then 0 else 1)%nat.
Proof.
  rewrite onCall_wire. unfold terminal_count, result_count, error_count.
  rewrite !List.filter_app, !filter_messages by reflexivity. simpl.
  rewrite terminal_is_terminal, terminal_is_result, terminal_is_error.
  destruct (succeeded (snd (h req))); repeat split; reflexivity.
Qed.

End PlatformFacts.

(** ** functions/src/index.ts *)

(** Runs the monad's operations, and nothing else. *)
Ltac step_handler :=
  cbn [bind tell try_catch await ret throw fst snd app].

Section ServerFacts.

Variable ai : Producer.

Lemma forward_run (stream : Stream JsString) :
  Server.forward stream =
    (rounds (items stream),
     match failure stream with Some e => inl e | None => inr tt end).
Proof.
  induction stream as [| e | text rest IH]; try reflexivity.
  cbn [Server.forward items failure rounds flat_map]. rewrite IH.
  step_handler. reflexivity.
Qed.

(** The streaming branch, in closed form. *)
Lemma streaming_branch_run (userInput fullPrompt : JsString) :
  Server.streaming_branch ai userInput fullPrompt =
    (LogInfo "Streaming request accepted:" userInput
     :: GenerateStream fullPrompt
     :: rounds (items (fst (generateStream ai fullPrompt)))
     ++ match produce ai true fullPrompt with
        | inl e => [LogError "Error during streaming generation:" e]
        | inr _ => []
        end,
     match produce ai true fullPrompt with
     | inl e =>
         inl (HttpsError internal
                (lit "Streaming generation failed: " ++ message_of e))
     | inr text => inr {| Server.completion := text |}
     end).
Proof.
  unfold Server.streaming_branch, produce, stream_result.
  destruct (generateStream ai fullPrompt) as [stream response].
  rewrite forward_run. step_handler.
  destruct (failure stream) as [e |]; step_handler.
  - reflexivity.
  - destruct response as [e | text]; step_handler;
      rewrite ?app_nil_r; reflexivity.
Qed.

Lemma non_streaming_branch_run (fullPrompt : JsString) :
  Server.non_streaming_branch ai fullPrompt =
    (Generate fullPrompt
     :: match generate ai fullPrompt with
        | inl e => [LogError "Error during non-streaming generation:" e]
        | inr _ => []
        end,
     match generate ai fullPrompt with
     | inl e =>
         inl (HttpsError internal
                (lit "Non-streaming generation failed: " ++ message_of e))
     | inr text => inr {| Server.completion := text |}
     end).
Proof.
  unfold Server.non_streaming_branch.
  destruct (generate ai fullPrompt) as [e | text]; reflexivity.
Qed.

Lemma handler_valid (req : CallableRequest) (userInput : JsString) :
  valid_prompt req = Some userInput ->
  Server.handler ai req =
    if acceptsStreaming req
    then Server.streaming_branch ai userInput
           (Server.createCorpspeakPrompt userInput)
    else Server.non_streaming_branch ai
           (Server.createCorpspeakPrompt userInput).
Proof.
  unfold valid_prompt, Server.handler.
  destruct (get "prompt" (data req)) as [| | b | n | s |]; try discriminate.
  destruct (truthy (trim s)); [| discriminate].
  intros [= ->]. reflexivity.
Qed.

Lemma handler_invalid (req : CallableRequest) :
  valid_prompt req = None ->
  Server.handler ai req = throw Server.invalid_prompt.
Proof.
  unfold valid_prompt, Server.handler.
  destruct (get "prompt" (data req)) as [| | b | n | s |]; try reflexivity.
  destruct (truthy (trim s)); [discriminate | reflexivity].
Qed.

(** How the handler settles, for every request. *)
Lemma handler_settles (req : CallableRequest) :
  succeeded (snd (Server.handler ai req)) =
    match valid_prompt req with
    | Some userInput =>
        succeeded (produce ai (acceptsStreaming req)
                     (Server.createCorpspeakPrompt userInput))
    | None => false
    end.
Proof.
  destruct (valid_prompt req) as [userInput |] eqn:Hv.
  - rewrite (handler_valid _ _ Hv).
    destruct (acceptsStreaming req).
    + rewrite streaming_branch_run. cbn [snd].
      destruct (produce ai true _); reflexivity.
    + rewrite non_streaming_branch_run. unfold produce. cbn [snd].
      destruct (generate ai _); reflexivity.
  - rewrite (handler_invalid _ Hv). reflexivity.
Qed.

End ServerFacts.


(** ** The Genkit flow *)

Section FlowFacts.

Variable validationError : Exn.
Variable ai : Producer.

Lemma flow_forward_run (sendChunk : bool) (stream : Stream JsString) :
  Flow.forward sendChunk stream =
    (flow_rounds sendChunk (items stream),
     match failure stream with Some e => inl e | None => inr tt end).
Proof.
  induction stream as [| e | text rest IH]; try reflexivity.
  cbn [Flow.forward items failure flow_rounds flat_map]. rewrite IH.
  fold (normalize text).
  destruct (truthy (normalize text)); [destruct sendChunk |];
    step_handler; rewrite <- ?app_assoc; reflexivity.
Qed.

Lemma flow_body_run (sendChunk : bool) (userInput : JsString) :
  Flow.flow_body ai sendChunk userInput =
    (LogInfo "Corpspeak flow received input:" userInput
     :: GenerateStream (Flow.createCorpspeakPrompt userInput)
     :: flow_rounds sendChunk
          (items (fst (generateStream ai
                         (Flow.createCorpspeakPrompt userInput)))),
     match produce ai true (Flow.createCorpspeakPrompt userInput) with
     | inl e => inl e
     | inr text => inr {| Flow.corpspeak := text |}
     end).
Proof.
  unfold Flow.flow_body, produce, stream_result.
  destruct (generateStream ai _) as [stream response].
  rewrite flow_forward_run. step_handler.
  destruct (failure stream) as [e |]; step_handler.
  - reflexivity.
  - destruct response as [e | text]; step_handler;
      rewrite ?app_nil_r; reflexivity.
Qed.

Lemma sent_flow_rounds (sendChunk : bool) (texts : list JsString) :
  sent (flow_rounds sendChunk texts) =
    if sendChunk then List.filter truthy (map normalize texts) else [].
Proof.
  induction texts as [|text texts IH].
  - destruct sendChunk; reflexivity.
  - cbn [flow_rounds flat_map map List.filter]. rewrite sent_app.
    fold (flow_rounds sendChunk texts). rewrite IH.
    destruct (truthy (normalize text)); destruct sendChunk; reflexivity.
Qed.

Lemma producer_calls_flow_rounds (sendChunk : bool) (texts : list JsString) :
  producer_calls (flow_rounds sendChunk texts) = [].
Proof.
  induction texts as [|text texts IH]; [reflexivity |].
  cbn [flow_rounds flat_map]. rewrite producer_calls_app.
  fold (flow_rounds sendChunk texts). rewrite IH.
  destruct (truthy (normalize text)); destruct sendChunk; reflexivity.
Qed.

(** What leaves the flow as fragments, for every request. *)
Lemma flow_fragments (sendChunk : bool) (req : CallableRequest) :
  fragments (Flow.generateCorpspeak validationError ai sendChunk req) =
    if acceptsStreaming req && sendChunk
    then List.filter truthy (map normalize (flow_produced ai req))
    else [].
Proof.
  unfold Flow.generateCorpspeak. rewrite onCall_wire, fragments_app.
  rewrite fragments_messages, fragments_terminal, app_nil_r.
  unfold Flow.corpspeakGeneratorFlow, flow_produced.
  destruct (acceptsStreaming req); [| reflexivity].
  destruct (Flow.inputSchema (data req)) as [userInput |].
  - rewrite flow_body_run. cbn [fst sent]. apply sent_flow_rounds.
  - destruct sendChunk; reflexivity.
Qed.

Lemma flow_final (sendChunk : bool) (req : CallableRequest) :
  final (Flow.generateCorpspeak validationError ai sendChunk req) =
    Some (match terminal
                  (snd (Flow.corpspeakGeneratorFlow validationError ai
                          sendChunk (data req))) with
          | WError code msg => inl (code, msg)
          | WResult v => inr v
          | WMessage _ => inl (internal, [])
          end).
Proof.
  unfold Flow.generateCorpspeak. rewrite onCall_wire, final_messages.
  destruct (snd _) as [[m | code m] | v]; reflexivity.
Qed.

End FlowFacts.

Lemma valid_prompt_passes_schema (req : CallableRequest) (userInput : JsString) :
  valid_prompt req = Some userInput ->
  Flow.inputSchema (data req) = Some userInput.
Proof.
  unfold valid_prompt, Flow.inputSchema.
  destruct (get "prompt" (data req)) as [| | b | n | s |]; try discriminate.
  destruct (truthy (trim s)) eqn:Ht; [| discriminate].
  intros [= ->]. destruct userInput; [discriminate | reflexivity].
Qed.


Lemma server_final (ai : Producer) (req : CallableRequest) :
  final (Server.generateCorpspeak ai req) =
    Some (match terminal (snd (Server.handler ai req)) with
          | WError code msg => inl (code, msg)
          | WResult v => inr v
          | WMessage _ => inl (internal, [])
          end).
Proof.
  unfold Server.generateCorpspeak. rewrite onCall_wire, final_messages.
  destruct (snd _) as [[m | code m] | v]; reflexivity.
Qed.

Lemma server_fragments (ai : Producer) (req : CallableRequest) :
  fragments (Server.generateCorpspeak ai req) =
    if acceptsStreaming req then sent (fst (Server.handler ai req)) else [].
Proof.
  unfold Server.generateCorpspeak. rewrite onCall_wire, fragments_app.
  rewrite fragments_messages, fragments_terminal. apply app_nil_r.
Qed.

(** ** The server-side claims *)

(** C1. Every call, streaming or not, to [index.ts] and to the Genkit flow
    ends with exactly one closing record, which comes last: a result record
    when the request is accepted and the producer does not fail, an error
    record otherwise.  In particular a producer that fails, before or after
    it handed out fragments, gives one error record and no result record. *)
Theorem exactly_one_terminal_event (validationError : Exn) (ai : Producer)
    (sendChunk : bool) (req : CallableRequest) :
  let wire := Server.generateCorpspeak ai req in
  let flow_wire := Flow.generateCorpspeak validationError ai sendChunk req in
  (closed wire
   /\ terminal_count wire = 1%nat
   /\ result_count wire = (if serves ai req then 1 else 0)%nat
   /\ error_count wire = (if serves ai req then 0 else 1)%nat)
  /\ (closed flow_wire
      /\ terminal_count flow_wire = 1%nat
      /\ result_count flow_wire = (if flow_serves ai req then 1 else 0)%nat
      /\ error_count flow_wire = (if flow_serves ai req then 0 else 1)%nat).
Proof.
  intros wire flow_wire. split.
  - split; [apply onCall_closed |].
    unfold wire, Server.generateCorpspeak, serves.
    rewrite <- handler_settles. apply onCall_counts.
  - split; [apply onCall_closed |].
    assert (Hs : succeeded
                   (snd (Flow.corpspeakGeneratorFlow validationError ai
                           sendChunk (data req))) = flow_serves ai req).
    { unfold Flow.corpspeakGeneratorFlow, flow_serves.
      destruct (Flow.inputSchema (data req)) as [userInput |];
        [| reflexivity].
      rewrite flow_body_run. cbn [snd].
      destruct (produce ai true _); reflexivity. }
    rewrite <- Hs. unfold flow_wire, Flow.generateCorpspeak.
    apply (onCall_counts
             (fun r => Flow.corpspeakGeneratorFlow validationError ai
                         sendChunk (data r))).
Qed.

(** The scenario of section 8 in which the producer throws after two
    fragments: the two fragments go out, then one error record, and no
    result. *)
Example failure_after_two_fragments :
  let ai := failing [lit "Per "; lit "our "] (Error (lit "quota")) in
  Server.generateCorpspeak ai (request (lit "The server is down.") true)
  = [WMessage (lit "Per "); WMessage (lit "our ");
     WError internal (lit "Streaming generation failed: quota")].
Proof. vm_compute. reflexivity. Qed.

(** C2, as the code has it.  In [index.ts] every fragment of the producer
    is passed to [sendChunk] in the loop round that received it, so the
    client sees the producer's fragments, all of them and in order, and the
    final result is the text of the producer's response whatever the
    fragments were.  In the Genkit flow the fragments go out in the
    producer's order after the clean-up, those left empty by it are not
    sent, and the final result is again the response's text. *)
Theorem fragments_in_order (validationError : Exn) (ai : Producer)
    (req : CallableRequest) (userInput : JsString) :
  valid_prompt req = Some userInput ->
  acceptsStreaming req = true ->
  let fullPrompt := Server.createCorpspeakPrompt userInput in
  let produced := items (fst (generateStream ai fullPrompt)) in
  let wire := Server.generateCorpspeak ai req in
  let flow_wire := Flow.generateCorpspeak validationError ai true req in
  (fragments wire = produced
   /\ (exists tail,
         fst (Server.handler ai req) =
           LogInfo "Streaming request accepted:" userInput
           :: GenerateStream fullPrompt :: rounds produced ++ tail
         /\ sent tail = [])
   /\ (forall text,
         produce ai true fullPrompt = inr text ->
         final wire = Some (inr {| Server.completion := text |})))
  /\ (fragments flow_wire = List.filter truthy (map normalize produced)
      /\ (forall text,
            produce ai true fullPrompt = inr text ->
            final flow_wire = Some (inr {| Flow.corpspeak := text |}))).
Proof.
  intros Hv Hs fullPrompt produced wire flow_wire. split.
  - unfold wire. rewrite server_fragments, server_final, Hs.
    rewrite (handler_valid ai _ _ Hv), Hs, streaming_branch_run.
    cbn [fst snd sent]. fold fullPrompt. fold produced.
    split; [| split].
    + rewrite sent_app, sent_rounds.
      destruct (produce ai true fullPrompt); apply app_nil_r.
    + eexists. split; [reflexivity |].
      destruct (produce ai true fullPrompt); reflexivity.
    + intros text Ht. rewrite Ht. reflexivity.
  - pose proof (valid_prompt_passes_schema _ _ Hv) as Hschema.
    unfold flow_wire. rewrite flow_fragments, flow_final, Hs.
    unfold flow_produced, Flow.corpspeakGeneratorFlow. rewrite Hschema.
    split; [reflexivity |].
    intros text Ht. rewrite flow_body_run. cbn [snd].
    change (Flow.createCorpspeakPrompt userInput) with fullPrompt.
    rewrite Ht. reflexivity.
Qed.

(** The scenario of section 8 on [index.ts]: three fragments, in order, and
    the full sentence as the final result. *)
Lemma fragments_in_order_scenario :
  let req := request (lit "The server is down.") true in
  let wire := Server.generateCorpspeak scenario_ai req in
  fragments wire = [lit "Per "; lit "our "; lit "strategic review, "]
  /\ length (fragments wire) = 3%nat
  /\ final wire = Some (inr {| Server.completion := scenario_final |})
  /\ concat (fragments wire) <> scenario_final.
Proof.
  intros req wire.
  assert (Hv : valid_prompt req = Some (lit "The server is down."))
    by (vm_compute; reflexivity).
  destruct (fragments_in_order (Error []) scenario_ai req _ Hv eq_refl)
    as [(Hfrag & _ & Hfinal) _].
  fold wire in Hfrag, Hfinal. rewrite Hfrag.
  split; [reflexivity |]. split; [reflexivity |].
  split; [apply Hfinal; reflexivity |].
  vm_compute. discriminate.
Defined.

(** C2 as stated fails on the Genkit flow: a fragment of one space is
    produced and no fragment event is sent. *)
Lemma flow_drops_blank_fragment :
  let ai := scripted [lit " "] (lit "Done.") in
  let req := request (lit "hi") true in
  let wire := Flow.generateCorpspeak (Error []) ai true req in
  items (fst (generateStream ai (Flow.createCorpspeakPrompt (lit "hi"))))
    = [lit " "]
  /\ fragments wire = []
  /\ fragments wire <>
       items (fst (generateStream ai (Flow.createCorpspeakPrompt (lit "hi")))).
Proof.
  intros ai req wire.
  split; [reflexivity |]. split; [vm_compute; reflexivity |].
  vm_compute. discriminate.
Qed.



(** C4. Against a producer whose streamed generation ends as its plain
    generation does, a streaming and a non-streaming call with the same
    data deliver the same completion text.  Both branches call the producer
    with the one prompt built by [createCorpspeakPrompt], and the text
    delivered is the producer's final text. *)
Theorem same_final_text (ai : Producer) (input : JsObject)
    (userInput : JsString) :
  let streaming := {| data := input; acceptsStreaming := true |} in
  let plain := {| data := input; acceptsStreaming := false |} in
  let fullPrompt := Server.createCorpspeakPrompt userInput in
  get "prompt" input = VString userInput ->
  produce ai true fullPrompt = produce ai false fullPrompt ->
  completion_text (Server.generateCorpspeak ai streaming)
    = completion_text (Server.generateCorpspeak ai plain)
  /\ (trim userInput <> [] ->
      producer_calls (fst (Server.handler ai streaming))
        = [(true, fullPrompt)]
      /\ producer_calls (fst (Server.handler ai plain))
         = [(false, fullPrompt)]
      /\ completion_text (Server.generateCorpspeak ai plain)
         = match generate ai fullPrompt with
           | inr text => Some text
           | inl _ => None
           end).
Proof.
  intros streaming plain fullPrompt Hget Hdet.
  unfold completion_text. rewrite !server_final.
  destruct (truthy (trim userInput)) eqn:Ht.
  - assert (Hvs : valid_prompt streaming = Some userInput)
      by (unfold valid_prompt; cbn [data streaming]; rewrite Hget, Ht;
          reflexivity).
    assert (Hvp : valid_prompt plain = Some userInput)
      by (unfold valid_prompt; cbn [data plain]; rewrite Hget, Ht;
          reflexivity).
    rewrite (handler_valid ai _ _ Hvs), (handler_valid ai _ _ Hvp).
    cbn [acceptsStreaming streaming plain].
    rewrite streaming_branch_run, non_streaming_branch_run.
    fold fullPrompt. cbn [fst snd]. rewrite Hdet.
    unfold produce. cbn [producer_calls].
    rewrite producer_calls_app, producer_calls_rounds.
    destruct (generate ai fullPrompt) as [e | text]; repeat split.
  - assert (Hvs : valid_prompt streaming = None)
      by (unfold valid_prompt; cbn [data streaming]; rewrite Hget, Ht;
          reflexivity).
    assert (Hvp : valid_prompt plain = None)
      by (unfold valid_prompt; cbn [data plain]; rewrite Hget, Ht;
          reflexivity).
    rewrite (handler_invalid ai _ Hvs), (handler_invalid ai _ Hvp).
    split; [reflexivity |].
    intros Hne. apply truthy_false in Ht. contradiction.
Qed.

Lemma same_final_text_witness :
  let input := [("prompt"%string, VString (lit "The server is down."))] in
  completion_text
    (Server.generateCorpspeak scenario_ai
       {| data := input; acceptsStreaming := true |})
  = completion_text
      (Server.generateCorpspeak scenario_ai
         {| data := input; acceptsStreaming := false |})
  /\ completion_text
       (Server.generateCorpspeak scenario_ai
          {| data := input; acceptsStreaming := false |})
     = Some scenario_final.
Proof.
  intros input.
  destruct (same_final_text scenario_ai input (lit "The server is down.")
              eq_refl eq_refl) as [Hsame Hrest].
  split; [exact Hsame |].
  apply Hrest. vm_compute. discriminate.
Defined.

(** C5. A call that does not accept streaming puts no fragment on the wire:
    the wire holds one record.  For an accepted prompt the handler calls
    [generate] once, with the full prompt, sends no chunk, and the record
    is the result with the text [generate] resolved with (or the error
    record if [generate] rejects). *)
Theorem non_incremental_single_result (ai : Producer) (req : CallableRequest) :
  acceptsStreaming req = false ->
  let wire := Server.generateCorpspeak ai req in
  fragments wire = []
  /\ length wire = 1%nat
  /\ sent (fst (Server.handler ai req)) = []
  /\ forall userInput,
       valid_prompt req = Some userInput ->
       let fullPrompt := Server.createCorpspeakPrompt userInput in
       producer_calls (fst (Server.handler ai req)) = [(false, fullPrompt)]
       /\ wire =
            [match generate ai fullPrompt with
             | inr text => WResult {| Server.completion := text |}
             | inl e =>
                 WError internal
                   (lit "Non-streaming generation failed: " ++ message_of e)
             end].
Proof.
  intros Hs wire.
  assert (Hwire : wire = [terminal (snd (Server.handler ai req))]).
  { unfold wire, Server.generateCorpspeak. rewrite onCall_wire, Hs.
    reflexivity. }
  assert (Hsent : sent (fst (Server.handler ai req)) = []).
  { destruct (valid_prompt req) as [userInput |] eqn:Hv.
    - rewrite (handler_valid ai _ _ Hv), Hs, non_streaming_branch_run.
      cbn [fst sent]. destruct (generate ai _); reflexivity.
    - rewrite (handler_invalid ai _ Hv). reflexivity. }
  rewrite Hwire, fragments_terminal.
  split; [reflexivity |]. split; [reflexivity |]. split; [exact Hsent |].
  intros userInput Hv fullPrompt.
  rewrite (handler_valid ai _ _ Hv), Hs, non_streaming_branch_run.
  fold fullPrompt. cbn [fst snd producer_calls].
  destruct (generate ai fullPrompt); split; reflexivity.
Qed.

Lemma non_incremental_single_result_witness :
  Server.generateCorpspeak scenario_ai
    (request (lit "The server is down.") false)
  = [WResult {| Server.completion := scenario_final |}].
Proof.
  destruct (non_incremental_single_result scenario_ai
              (request (lit "The server is down.") false) eq_refl)
    as (_ & _ & _ & H).
  destruct (H (lit "The server is down.")) as [_ Hwire].
  - vm_compute. reflexivity.
  - exact Hwire.
Defined.

(** ** More on [trim] *)

Section TrimAlgebra.

Lemma trimStart_app (a b : JsString) :
  trimStart (a ++ b) =
    if forallb isWhiteSpace a then trimStart b else trimStart a ++ b.
Proof.
  induction a as [|c a IH]; simpl; [reflexivity |].
  destruct (isWhiteSpace c); [exact IH | reflexivity].
Qed.

Lemma trimStart_blank (a : JsString) :
  forallb isWhiteSpace a = true -> trimStart a = [].
Proof.
  induction a as [|c a IH]; simpl; [reflexivity |].
  destruct (isWhiteSpace c); [exact IH | discriminate].
Qed.

Lemma trimStart_fixed (s : JsString) :
  match s with [] => True | c :: _ => isWhiteSpace c = false end ->
  trimStart s = s.
Proof. destruct s as [|c s]; simpl; [reflexivity | intros ->; reflexivity]. Qed.

Lemma trimStart_idem (s : JsString) : trimStart (trimStart s) = trimStart s.
Proof.
  apply trimStart_fixed. destruct (trimStart s) as [|c rest] eqn:Hs; [exact I |].
  exact (trimStart_head _ _ _ Hs).
Qed.

Lemma trimEnd_split (s : JsString) :
  exists ws, s = trimEnd s ++ ws /\ forallb isWhiteSpace ws = true.
Proof.
  destruct (trimStart_split (rev s)) as (ws & Heq & Hws).
  exists (rev ws). split.
  - unfold trimEnd. rewrite <- rev_app_distr, <- Heq, rev_involutive.
    reflexivity.
  - rewrite forallb_forall in *. intros c Hc. apply Hws, in_rev, Hc.
Qed.

Lemma trimEnd_prefix (s : JsString) : trimEnd s `prefix_of` s.
Proof. destruct (trimEnd_split s) as (ws & Heq & _). exists ws. exact Heq. Qed.

Lemma trimEnd_app (a b : JsString) :
  trimEnd (a ++ b) =
    if forallb isWhiteSpace b then trimEnd a else a ++ trimEnd b.
Proof.
  unfold trimEnd. rewrite rev_app_distr, trimStart_app.
  assert (Hrev : forallb isWhiteSpace (rev b) = forallb isWhiteSpace b).
  { induction b as [|c b IH]; simpl; [reflexivity |].
    rewrite forallb_app, IH. simpl. rewrite andb_true_r. apply andb_comm. }
  rewrite Hrev. destruct (forallb isWhiteSpace b); [reflexivity |].
  rewrite rev_app_distr, rev_involutive. reflexivity.
Qed.

Lemma trimEnd_idem (s : JsString) : trimEnd (trimEnd s) = trimEnd s.
Proof. unfold trimEnd. rewrite rev_involutive, trimStart_idem. reflexivity. Qed.

(** Trimming twice is trimming once. *)
Lemma trim_idem (s : JsString) : trim (trim s) = trim s.
Proof.
  unfold trim.
  assert (Hfix : trimStart (trimEnd (trimStart s)) = trimEnd (trimStart s)).
  { apply trimStart_fixed.
    destruct (trimEnd (trimStart s)) as [|c rest] eqn:He; [exact I |].
    destruct (trimEnd_prefix (trimStart s)) as [k Hk].
    rewrite He in Hk. simpl in Hk. exact (trimStart_head _ _ _ Hk). }
  rewrite Hfix. apply trimEnd_idem.
Qed.

(** What is shown of a text stays shown when the text grows. *)
Lemma trim_app_prefix (a b : JsString) : trim a `prefix_of` trim (a ++ b).
Proof.
  unfold trim. rewrite trimStart_app.
  destruct (forallb isWhiteSpace a) eqn:Ha.
  - rewrite (trimStart_blank _ Ha). apply prefix_nil.
  - rewrite trimEnd_app. destruct (forallb isWhiteSpace b).
    + reflexivity.
    + apply prefix_app_r, trimEnd_prefix.
Qed.

End TrimAlgebra.

(** C9. Every fragment the Genkit flow sends is non-empty and holds no line
    feed (nor white space at either end): the fragments are the producer's
    chunks after the clean-up, without those the clean-up leaves empty, so
    there can be fewer fragments than chunks. *)
Theorem flow_fragments_clean (validationError : Exn) (ai : Producer)
    (sendChunk : bool) (req : CallableRequest) :
  let wire := Flow.generateCorpspeak validationError ai sendChunk req in
  Forall (fun partial => partial <> [] /\ ~ In nl partial
                         /\ trim partial = partial)
    (fragments wire)
  /\ fragments wire =
       (if acceptsStreaming req && sendChunk
        then List.filter truthy (map normalize (flow_produced ai req))
        else [])
  /\ (length (fragments wire) <= length (flow_produced ai req))%nat
  /\ length
       (fragments
          (Flow.generateCorpspeak validationError
             (scripted [lit "Per "; [nl]; lit "our "] []) true
             (request (lit "hi") true))) = 2%nat.
Proof.
  intros wire. unfold wire. rewrite !flow_fragments.
  split; [| split; [reflexivity | split]].
  - destruct (acceptsStreaming req && sendChunk); [| constructor].
    apply List.Forall_forall. intros partial Hin.
    apply filter_In in Hin as [Hin Ht].
    apply in_map_iff in Hin as (text & <- & _).
    split; [apply truthy_true, Ht |]. split.
    + intros Hnl. unfold normalize in Hnl.
      pose proof (trim_Forall _ _ (replaceNewlines_no_nl text)) as Hall.
      rewrite List.Forall_forall in Hall. exact (Hall nl Hnl eq_refl).
    + apply trim_idem.
  - destruct (acceptsStreaming req && sendChunk); [| apply Nat.le_0_l].
    etransitivity; [apply List.filter_length_le |].
    rewrite length_map. reflexivity.
  - vm_compute. reflexivity.
Qed.

(** ** The web page script *)

(** Unfolds the page operations down to the record. *)
Ltac page_cbv :=
  cbv [Client.run fold_left Client.andThen Client.when Client.skip
       Client.set_nonStreamingStartTime Client.set_streamingStartTime
       Client.set_nonStreamingOpInProgress Client.set_streamingOpInProgress
       Client.record Client.set_timer Client.set_output Client.setLoading
       Client.updateTimerDisplay Client.nonStreaming_stop
       Client.nonStreaming_finally Client.streaming_stop
       Client.streaming_finally Client.streaming_catch Client.after_loop
       Client.on_data
       Client.nonStreamingStartTime Client.streamingStartTime
       Client.nonStreamingOpInProgress Client.streamingOpInProgress
       Client.outputNonStreaming Client.outputStreaming
       Client.timerNonStreaming Client.timerStreaming Client.disabled
       Client.journal Client.streamedContent Client.firstChunkReceived
       Client.fresh negb andb].

Section ClientFacts.

Import Client.

Lemma blank_truthy (promptText : JsString) :
  trim promptText = [] -> negb (truthy (trim promptText)) = true.
Proof. intros ->. reflexivity. Qed.

Lemma text_truthy (promptText : JsString) :
  trim promptText <> [] -> negb (truthy (trim promptText)) = false.
Proof. intros H. apply truthy_true in H. rewrite H. reflexivity. Qed.

Lemma calls_app (a b : list Action) : calls (a ++ b) = calls a ++ calls b.
Proof.
  induction a as [|x a IH]; simpl; [reflexivity |].
  destruct x; simpl; rewrite ?IH; reflexivity.
Qed.

Lemma ttfb_marks_app (a b : list Action) :
  ttfb_marks (a ++ b) = ttfb_marks a ++ ttfb_marks b.
Proof.
  induction a as [|x a IH]; simpl; [reflexivity |].
  destruct x as [| [] [] | | |]; simpl; rewrite ?IH; reflexivity.
Qed.

Lemma shown_app (a b : list Action) : shown (a ++ b) = shown a ++ shown b.
Proof.
  induction a as [|x a IH]; simpl; [reflexivity |].
  destruct x as [| | [] | |]; simpl; rewrite ?IH; reflexivity.
Qed.


Lemma run_cons (seg : Segment) (task : Task) (pg : Page) :
  run (seg :: task) pg = run task (seg pg).
Proof. reflexivity. Qed.

Lemma loop_body_locals (t : Z) (chunkData : Partial) (l : Locals) :
  fst (loop_body t chunkData l) =
    {| streamedContent := streamedContent l ++ partial chunkData;
       firstChunkReceived :=
         firstChunkReceived l || truthy (partial chunkData) |}.
Proof.
  unfold loop_body. destruct l as [content received].
  destruct chunkData as [[|c text]]; destruct received;
    cbn [fst negb andb orb truthy partial streamedContent firstChunkReceived];
    rewrite ?app_nil_r; reflexivity.
Qed.

(** What one round of the loop does to the page. *)
Lemma loop_round (t start : Z) (chunkData : Partial) (l : Locals) (pg : Page) :
  streamingStartTime pg = Some start ->
  let pg' := snd (loop_body t chunkData l) pg in
  streamingStartTime pg' = Some start
  /\ streamingOpInProgress pg' = streamingOpInProgress pg
  /\ ttfb_marks (journal pg') =
       ttfb_marks (journal pg)
       ++ (if negb (firstChunkReceived l) && truthy (partial chunkData)
           then [t - start]%Z else [])
  /\ shown (journal pg') =
       shown (journal pg)
       ++ [trim (streamedContent (fst (loop_body t chunkData l)))].
Proof.
  destruct pg as [st1 st2 f1 f2 o1 o2 t1 t2 d j].
  cbn [streamingStartTime]. intros ->.
  unfold loop_body. cbn [fst snd].
  destruct (negb (firstChunkReceived l) && truthy (partial chunkData));
    page_cbv; rewrite !ttfb_marks_app, !shown_app;
    cbn [ttfb_marks shown]; rewrite ?app_nil_r; repeat split.
Qed.

(** The timer writes of the loop and of what follows it. *)
Lemma consume_marks (start : Z) (s : ResultStream)
    (dataPromise : Settled Completion) :
  forall (l : Locals) (pg : Page),
    streamingStartTime pg = Some start ->
    streamingOpInProgress pg = true ->
    ttfb_marks (journal (run (consume l s dataPromise) pg)) =
      ttfb_marks (journal pg)
      ++ loop_marks (firstChunkReceived l) s dataPromise start.
Proof.
  induction s as [t | t error | t chunkData rest IH]; intros l pg Hst Hin.
  - destruct pg as [st1 st2 f1 f2 o1 o2 t1 t2 d j].
    cbn [streamingStartTime streamingOpInProgress] in Hst, Hin. subst.
    destruct dataPromise as [td [error | finalResult]];
      destruct l as [content []]; cbn [consume firstChunkReceived];
      unfold loop_marks;
      cbn [first_text closes ends_normally succeeded snd fst negb andb];
      destruct f1; page_cbv;
      rewrite ?ttfb_marks_app; cbn [ttfb_marks];
      rewrite ?app_nil_r, <- ?app_assoc; reflexivity.
  - destruct pg as [st1 st2 f1 f2 o1 o2 t1 t2 d j].
    cbn [streamingStartTime streamingOpInProgress] in Hst, Hin. subst.
    destruct l as [content []]; cbn [consume firstChunkReceived];
      unfold loop_marks;
      cbn [first_text closes ends_normally succeeded snd fst negb andb];
      destruct f1; page_cbv;
      rewrite ?ttfb_marks_app; cbn [ttfb_marks];
      rewrite ?app_nil_r, <- ?app_assoc; reflexivity.
  - cbn [consume].
    destruct (loop_body t chunkData l) as [l' round] eqn:Hbody.
    rewrite run_cons.
    pose proof (loop_round t start chunkData l pg Hst) as Hround.
    pose proof (loop_body_locals t chunkData l) as Hl'.
    rewrite Hbody in Hround, Hl'. cbn [fst snd] in Hround, Hl'.
    destruct Hround as (Hst' & Hin' & Hmarks & _).
    rewrite (IH l' (round pg) Hst') by (rewrite Hin'; exact Hin).
    rewrite Hmarks, <- app_assoc. f_equal.
    subst l'. cbn [firstChunkReceived]. unfold loop_marks.
    cbn [first_text closes ends_normally].
    destruct (firstChunkReceived l); cbn [negb andb orb]; [reflexivity |].
    destruct (truthy (partial chunkData)); reflexivity.
Qed.

End ClientFacts.

(** C10. Called on a text that is empty or blank, either request handler
    returns at once: it issues no call, writes neither output nor timer,
    reports no error, and leaves the in-flight flags and the start times as
    they were.  All it may do is enable the buttons again, when the other
    call is not in flight. *)
Theorem blank_input_ignored (promptText : JsString) (now : Z)
    (reply : Client.Settled Client.Completion)
    (streamReply : Client.StreamCall) (pg : Client.Page) :
  trim promptText = [] ->
  let plain := Client.run
                 (Client.handleNonStreamingRequest promptText now reply) pg in
  let streamed := Client.run
                    (Client.handleStreamingRequest promptText now streamReply)
                    pg in
  (plain =
     (if Client.streamingOpInProgress pg then pg
      else Client.setLoading false pg)
   /\ view false plain = view false pg /\ view true plain = view true pg
   /\ Client.calls (Client.journal plain) = Client.calls (Client.journal pg)
   /\ Client.journal plain =
        Client.journal pg
        ++ (if Client.streamingOpInProgress pg then []
            else [Client.SetLoading false]))
  /\ (streamed =
        (if Client.nonStreamingOpInProgress pg then pg
         else Client.setLoading false pg)
      /\ view false streamed = view false pg
      /\ view true streamed = view true pg
      /\ Client.calls (Client.journal streamed)
         = Client.calls (Client.journal pg)
      /\ Client.journal streamed =
           Client.journal pg
           ++ (if Client.nonStreamingOpInProgress pg then []
               else [Client.SetLoading false])).
Proof.
  intros Hblank plain streamed.
  unfold plain, streamed, Client.handleNonStreamingRequest,
    Client.handleStreamingRequest.
  rewrite (blank_truthy _ Hblank).
  destruct pg as [st1 st2 f1 f2 o1 o2 t1 t2 d j].
  split.
  - destruct f2; page_cbv; unfold view; page_cbv;
      rewrite ?List.filter_app, ?calls_app, ?app_nil_r; repeat split.
  - destruct f1; page_cbv; unfold view; page_cbv;
      rewrite ?List.filter_app, ?calls_app, ?app_nil_r; repeat split.
Qed.

Section TimerFacts.

Import Client.

Lemma first_text_time (s : ResultStream) (t : Z) :
  first_text s = Some t -> In t (stream_times s).
Proof.
  induction s as [t' | t' error | t' chunkData rest IH]; simpl;
    try discriminate.
  destruct (truthy (partial chunkData)).
  - intros [= ->]. left. reflexivity.
  - intros H. right. apply IH, H.
Qed.

Lemma closes_time (s : ResultStream) : In (closes s) (stream_times s).
Proof.
  induction s as [t | t error | t chunkData rest IH]; simpl; auto.
Qed.

(** The head of [handleStreamingRequest], up to the first [await]. *)
Lemma streaming_start (promptText : JsString) (now : Z) (reply : StreamCall)
    (pg : Page) :
  trim promptText <> [] ->
  exists start rest,
    handleStreamingRequest promptText now reply = start :: rest
    /\ rest = match reply with
              | Rejected t error =>
                  [ streaming_catch t fresh error >> streaming_finally ]
              | Opened resultStream dataPromise =>
                  set_output outputStreamingDiv (streamedContent fresh)
                  :: consume fresh resultStream dataPromise
              end
    /\ streamingStartTime (start pg) = Some now
    /\ streamingOpInProgress (start pg) = true
    /\ ttfb_marks (journal (start pg)) = ttfb_marks (journal pg)
    /\ calls (journal (start pg)) = calls (journal pg) ++ [(true, promptText)].
Proof.
  intros Htext. unfold handleStreamingRequest.
  rewrite (text_truthy _ Htext). eexists _, _.
  split; [reflexivity |]. split; [reflexivity |].
  destruct pg as [st1 st2 f1 f2 o1 o2 t1 t2 d j]. page_cbv.
  rewrite !ttfb_marks_app, !calls_app. cbn [ttfb_marks calls].
  rewrite ?app_nil_r. repeat split.
Qed.

End TimerFacts.

(** C6, as the code has it.  A streaming call writes its time to first
    output when the first fragment with a non-empty text arrives, and only
    then; fragments with an empty text before it do not count.  When no
    fragment has text, the time is written when the stream ends or throws
    (or when the call itself is rejected), and it is the only one written
    if the stream threw or the final result arrived.  Every duration
    written is the clock reading at that moment less the reading at the
    start, so it is not negative as long as the clock does not run
    backwards. *)
Theorem ttfb_captured_once (promptText : JsString) (now : Z)
    (reply : Client.StreamCall) (pg : Client.Page) :
  trim promptText <> [] ->
  exists marks,
    Client.ttfb_marks
      (Client.journal
         (Client.run (Client.handleStreamingRequest promptText now reply) pg))
    = Client.ttfb_marks (Client.journal pg) ++ marks
    /\ match reply with
       | Client.Rejected t _ => marks = [t - now]%Z
       | Client.Opened s (td, settled) =>
           match Client.first_text s with
           | Some t => marks = [t - now]%Z
           | None =>
               exists again,
                 marks = (Client.closes s - now)%Z :: again
                 /\ (Client.ends_normally s = false
                     \/ succeeded settled = true -> again = [])
           end
       end
    /\ (Forall (fun t => now <= t)%Z (Client.call_times reply) ->
        Forall (fun d => 0 <= d)%Z marks).
Proof.
  intros Htext.
  destruct (streaming_start promptText now reply pg Htext)
    as (start & rest & -> & -> & Hst & Hin & Hmarks & _).
  rewrite run_cons.
  destruct reply as [t error | s [td settled]].
  - exists [(t - now)%Z]. split; [| split; [reflexivity |]].
    + rewrite <- Hmarks. clear Hmarks.
      destruct (start pg) as [st1 st2 f1 f2 o1 o2 t1 t2 d j].
      cbn [Client.streamingStartTime Client.streamingOpInProgress]
        in Hst, Hin. subst.
      destruct f1; page_cbv; rewrite ?ttfb_marks_app;
        cbn [Client.ttfb_marks]; rewrite ?app_nil_r, <- ?app_assoc;
        reflexivity.
    + cbn [Client.call_times]. intros Hclock.
      apply List.Forall_inv in Hclock.
      constructor; [lia | constructor].
  - exists (loop_marks false s (td, settled) now).
    split; [| split].
    + rewrite run_cons, <- Hmarks.
      rewrite (consume_marks now s (td, settled) Client.fresh).
      * f_equal. destruct (start pg). page_cbv.
        rewrite ttfb_marks_app. apply app_nil_r.
      * destruct (start pg). exact Hst.
      * destruct (start pg). exact Hin.
    + unfold loop_marks. cbn [fst snd].
      destruct (Client.first_text s) as [t |]; [reflexivity |].
      eexists. split; [reflexivity |].
      intros [-> | ->]; [reflexivity |].
      rewrite andb_false_r. reflexivity.
    + cbn [Client.call_times]. intros Hclock.
      rewrite List.Forall_forall in Hclock.
      assert (Hs : forall t, In t (Client.stream_times s) -> (0 <= t - now)%Z).
      { intros t Ht. assert (now <= t)%Z; [| lia].
        apply Hclock, in_or_app. left. exact Ht. }
      assert (Hd : (0 <= td - now)%Z).
      { assert (now <= td)%Z; [| lia].
        apply Hclock, in_or_app. right. left. reflexivity. }
      unfold loop_marks. cbn [fst snd].
      destruct (Client.first_text s) as [t |] eqn:Hfirst.
      * constructor; [| constructor].
        apply Hs, first_text_time, Hfirst.
      * constructor; [apply Hs, closes_time |].
        destruct (Client.ends_normally s && negb (succeeded settled));
          repeat constructor. exact Hd.
Qed.

Lemma ttfb_captured_once_witness :
  trim (lit "hi") <> []
  /\ exists marks,
       Client.ttfb_marks
         (Client.journal
            (Client.run (Client.handleStreamingRequest (lit "hi") 0
                           late_text_reply) initial_page))
       = marks
       /\ marks = [9%Z].
Proof.
  assert (Htext : trim (lit "hi") <> []) by (vm_compute; discriminate).
  split; [exact Htext |].
  destruct (ttfb_captured_once (lit "hi") 0 late_text_reply initial_page
              Htext) as (marks & Hmarks & Hwhen & _).
  exists marks. split; [exact Hmarks | exact Hwhen].
Defined.

(** C6 as stated fails: the first fragment arrives at 5 with an empty text,
    and the time to first output is taken at 9, with the second one. *)
Lemma ttfb_not_at_first_fragment :
  let reply := late_text_reply in
  let pg := Client.run (Client.handleStreamingRequest (lit "hi") 0 reply)
              initial_page in
  match reply with
  | Client.Opened s _ => Client.first_fragment s = Some 5%Z
  | _ => False
  end
  /\ Client.ttfb_marks (Client.journal pg) = [9%Z]
  /\ Client.ttfb_marks (Client.journal pg) <> [(5 - 0)%Z].
Proof.
  intros reply pg. split; [reflexivity |].
  split; [vm_compute; reflexivity | vm_compute; discriminate].
Qed.

Lemma blank_input_ignored_witness :
  Client.run
    (Client.handleStreamingRequest (lit "   ") 0 scenario_reply) initial_page
  = Client.setLoading false initial_page
  /\ Client.run
       (Client.handleNonStreamingRequest (lit "")  0
          (7%Z, inr {| Client.completion := scenario_final |})) initial_page
     = Client.setLoading false initial_page.
Proof.
  assert (Hblank : trim (lit "   ") = []) by (vm_compute; reflexivity).
  assert (Hempty : trim (lit "") = []) by (vm_compute; reflexivity).
  split.
  - apply (blank_input_ignored (lit "   ") 0
             (7%Z, inr {| Client.completion := scenario_final |})
             scenario_reply initial_page Hblank).
  - apply (blank_input_ignored (lit "") 0
             (7%Z, inr {| Client.completion := scenario_final |})
             scenario_reply initial_page Hempty).
Defined.

Section AccumulatorFacts.

Import Client.

Lemma loop_round_shown (t : Z) (chunkData : Partial) (l : Locals) (pg : Page) :
  shown (journal (snd (loop_body t chunkData l) pg)) =
    shown (journal pg) ++ [trim (streamedContent (fst (loop_body t chunkData l)))].
Proof.
  destruct pg as [st1 [start |] f1 f2 o1 o2 t1 t2 d j];
    unfold loop_body; cbn [fst snd];
    destruct (negb (firstChunkReceived l) && truthy (partial chunkData));
    page_cbv; rewrite !shown_app; cbn [shown]; rewrite ?app_nil_r;
    reflexivity.
Qed.

Lemma build_up_growing (s : ResultStream) :
  forall l : Locals,
    growing (streamedContent l) (build_up l s)
    /\ growing (trim (streamedContent l)) (map trim (build_up l s)).
Proof.
  induction s as [t | t error | t chunkData rest IH]; intros l;
    cbn [build_up map growing]; [repeat split .. |].
  destruct (IH (fst (loop_body t chunkData l))) as [IH1 IH2].
  rewrite loop_body_locals in *. cbn [streamedContent] in *.
  split; (split; [| assumption]).
  - apply prefix_app_r. reflexivity.
  - apply trim_app_prefix.
Qed.

Lemma build_up_concat (s : ResultStream) :
  forall l : Locals,
    build_up l s =
      map (fun n =>
             streamedContent l
             ++ concat (map partial (firstn n (chunks s))))
        (seq 1 (length (chunks s))).
Proof.
  induction s as [t | t error | t chunkData rest IH]; intros l;
    cbn [build_up chunks length seq map]; try reflexivity.
  rewrite IH, loop_body_locals. cbn [streamedContent].
  cbn [firstn map concat]. rewrite app_nil_r. f_equal.
  rewrite <- (seq_shift (length (chunks rest)) 1), map_map.
  apply map_ext. intros n.
  cbn [firstn map concat]. rewrite app_assoc. reflexivity.
Qed.

Lemma consume_shown (s : ResultStream) (dataPromise : Settled Completion) :
  forall (l : Locals) (pg : Page),
    exists rest,
      shown (journal (run (consume l s dataPromise) pg)) =
        shown (journal pg) ++ map trim (build_up l s) ++ rest.
Proof.
  induction s as [t | t error | t chunkData rest IH]; intros l pg.
  - destruct pg as [st1 [start |] f1 [] o1 o2 t1 t2 d j];
      destruct dataPromise as [td [error | finalResult]];
      destruct l as [content []]; destruct f1;
      cbn [consume build_up map app]; page_cbv;
      rewrite ?shown_app; cbn [shown]; rewrite ?app_nil_r, <- ?app_assoc;
      eexists; reflexivity.
  - destruct pg as [st1 [start |] f1 [] o1 o2 t1 t2 d j];
      destruct l as [content []]; destruct f1;
      cbn [consume build_up map app]; page_cbv;
      rewrite ?shown_app; cbn [shown]; rewrite ?app_nil_r, <- ?app_assoc;
      eexists; reflexivity.
  - cbn [consume build_up map].
    pose proof (loop_round_shown t chunkData l pg) as Hround.
    destruct (loop_body t chunkData l) as [l' round]. cbn [fst snd] in *.
    rewrite run_cons.
    destruct (IH l' (round pg)) as [more Hmore].
    exists more. rewrite Hmore, Hround, <- app_assoc. reflexivity.
Qed.

End AccumulatorFacts.

(** C7. In the loop of a streaming call the accumulated content only
    grows: after each fragment it is the content before with the
    fragment's text appended, hence the concatenation of the fragments seen
    so far in arrival order, and each value has the one before as a prefix.
    The text shown, which is the content trimmed, grows likewise, and the
    loop writes exactly these texts to the streaming output. *)
Theorem accumulator_only_appends (s : Client.ResultStream)
    (dataPromise : Client.Settled Client.Completion) (l : Client.Locals)
    (pg : Client.Page) :
  growing (Client.streamedContent l) (build_up l s)
  /\ build_up l s =
       map (fun n =>
              Client.streamedContent l
              ++ concat (map Client.partial (firstn n (Client.chunks s))))
         (seq 1 (length (Client.chunks s)))
  /\ growing (trim (Client.streamedContent l)) (map trim (build_up l s))
  /\ (exists rest,
        shown (Client.journal (Client.run (Client.consume l s dataPromise) pg))
        = shown (Client.journal pg) ++ map trim (build_up l s) ++ rest)
  /\ (forall t chunkData,
        Client.streamedContent (fst (Client.loop_body t chunkData l))
        = Client.streamedContent l ++ Client.partial chunkData).
Proof.
  destruct (build_up_growing s l) as [Hgrow Hshown].
  split; [exact Hgrow |]. split; [apply build_up_concat |].
  split; [exact Hshown |]. split; [apply consume_shown |].
  intros t chunkData. rewrite loop_body_locals. reflexivity.
Qed.

(** ** Two calls in flight *)

(** Settles that a segment is local to one call, by cases on the page. *)
Ltac split_page_cases :=
  repeat
    (match goal with
     | |- context [if ?b then _ else _] => is_var b; destruct b
     | |- context [match ?o with Some _ => _ | None => _ end] =>
         is_var o; destruct o
     end; cbv beta iota).


Section IndependenceFacts.

Import Client.







End IndependenceFacts.

Section CompletionFacts.

Import Client.







End CompletionFacts.


(** ** Further properties of the two servers *)

Section ServerMore.

Variable ai : Producer.

Lemma logged_errors_app (l1 l2 : list Effect) :
  logged_errors (l1 ++ l2) = logged_errors l1 ++ logged_errors l2.
Proof.
  induction l1 as [|ev l1 IH]; simpl; [reflexivity |].
  destruct ev; simpl; rewrite ?IH; reflexivity.
Qed.



Lemma trim_blank_iff (s : JsString) :
  trim s = [] <-> forallb isWhiteSpace s = true.
Proof.
  split.
  - intros Htrim.
    destruct (trimStart_split s) as (ws1 & Hs & Hws1).
    destruct (trimEnd_split (trimStart s)) as (ws2 & He & Hws2).
    fold (trim s) in He. rewrite Htrim in He. simpl in He.
    rewrite Hs, He, forallb_app, Hws1, Hws2. reflexivity.
  - intros Hall. unfold trim. rewrite (trimStart_blank _ Hall). reflexivity.
Qed.


End ServerMore.

(** X1. The handler of [index.ts] never retries and never mixes the modes:
    for an accepted prompt it calls the producer exactly once, with
    [generateStream] when the client accepts streaming and with [generate]
    otherwise, on the prompt built from the input; for a refused prompt it
    does not call it. *)
Theorem one_producer_call (ai : Producer) (req : CallableRequest) :
  producer_calls (fst (Server.handler ai req)) =
    match valid_prompt req with
    | Some userInput =>
        [(acceptsStreaming req, Server.createCorpspeakPrompt userInput)]
    | None => []
    end.
Proof.
  destruct (valid_prompt req) as [userInput |] eqn:Hv.
  - rewrite (handler_valid ai _ _ Hv). destruct (acceptsStreaming req).
    + rewrite streaming_branch_run. cbn [fst producer_calls].
      rewrite producer_calls_app, producer_calls_rounds.
      destruct (produce ai true _); reflexivity.
    + rewrite non_streaming_branch_run. cbn [fst producer_calls].
      destruct (generate ai _); reflexivity.
  - rewrite (handler_invalid ai _ Hv). reflexivity.
Qed.


(** X3. [createCorpspeakPrompt] puts the input, as it is, between the two
    fixed parts of the template: two inputs give the same prompt only if
    they are equal, the prompt is 657 code units longer than the input, and
    it is never blank. *)
Theorem prompt_embeds_input (a b : JsString) :
  (Server.createCorpspeakPrompt a = Server.createCorpspeakPrompt b -> a = b)
  /\ Server.createCorpspeakPrompt a
     = Server.prompt_head ++ a ++ Server.prompt_tail
  /\ length (Server.createCorpspeakPrompt a) = (657 + length a)%nat
  /\ trim (Server.createCorpspeakPrompt a) <> []
  /\ Flow.createCorpspeakPrompt a = Server.createCorpspeakPrompt a.
Proof.
  unfold Server.createCorpspeakPrompt, Flow.createCorpspeakPrompt.
  split; [| split; [reflexivity | split; [| split; [| reflexivity]]]].
  - intros H. apply app_inv_head in H. apply app_inv_tail in H. exact H.
  - rewrite !length_app.
    assert (Hhead : length Server.prompt_head = 628%nat)
      by (vm_compute; reflexivity).
    assert (Htail : length Server.prompt_tail = 29%nat)
      by (vm_compute; reflexivity).
    rewrite Hhead, Htail. lia.
  - intros Hblank. apply trim_blank_iff in Hblank.
    rewrite forallb_app in Hblank.
    apply andb_true_iff in Hblank as [Hhead _].
    vm_compute in Hhead. discriminate.
Qed.

Lemma prompt_embeds_input_witness :
  Server.createCorpspeakPrompt (lit "The server is down.")
  <> Server.createCorpspeakPrompt (lit "The server is up.").
Proof.
  intros Hsame.
  apply (prompt_embeds_input (lit "The server is down.")
           (lit "The server is up.")) in Hsame.
  vm_compute in Hsame. discriminate.
Defined.

Section FlowMore.

Variable validationError : Exn.
Variable ai : Producer.

Lemma previews_app (l1 l2 : list Effect) :
  previews (l1 ++ l2) = previews l1 ++ previews l2.
Proof.
  induction l1 as [|ev l1 IH]; [reflexivity |].
  destruct ev as [p | p | t | p | msg detail | msg e];
    cbn [app previews]; rewrite ?IH; try reflexivity.
  destruct (String.eqb msg "Sent corpspeak chunk:"); reflexivity.
Qed.

Lemma previews_flow_rounds (sendChunk : bool) (texts : list JsString) :
  previews (flow_rounds sendChunk texts) =
    map (fun partial => substring0 50 partial ++ lit "...")
      (List.filter truthy (map normalize texts)).
Proof.
  induction texts as [|text texts IH]; [reflexivity |].
  cbn [flow_rounds flat_map map List.filter]. rewrite previews_app.
  fold (flow_rounds sendChunk texts). rewrite IH.
  destruct (truthy (normalize text)); destruct sendChunk; reflexivity.
Qed.

Lemma logged_errors_flow_rounds (sendChunk : bool) (texts : list JsString) :
  logged_errors (flow_rounds sendChunk texts) = [].
Proof.
  induction texts as [|text texts IH]; [reflexivity |].
  cbn [flow_rounds flat_map]. rewrite logged_errors_app.
  fold (flow_rounds sendChunk texts). rewrite IH.
  destruct (truthy (normalize text)); destruct sendChunk; reflexivity.
Qed.

End FlowMore.

(** X4. The Genkit flow serves both kinds of client through the streaming
    generation: for an input that passes the schema it calls
    [generateStream] exactly once and never [generate], whether or not the
    client accepts streaming and whether or not it was given [sendChunk].
    It has no [catch]: a failure of the producer leaves the flow as the
    producer's own error, with nothing logged by [logger.error], and the
    closing record is the same in all four cases. *)
Theorem flow_always_streams (validationError : Exn) (ai : Producer)
    (sendChunk : bool) (req : CallableRequest) (userInput : JsString) :
  Flow.inputSchema (data req) = Some userInput ->
  let run := Flow.corpspeakGeneratorFlow validationError ai sendChunk
               (data req) in
  let fullPrompt := Flow.createCorpspeakPrompt userInput in
  producer_calls (fst run) = [(true, fullPrompt)]
  /\ snd run =
       match produce ai true fullPrompt with
       | inl e => inl e
       | inr text => inr {| Flow.corpspeak := text |}
       end
  /\ logged_errors (fst run) = []
  /\ final (Flow.generateCorpspeak validationError ai sendChunk req)
     = final (Flow.generateCorpspeak validationError ai true
                {| data := data req; acceptsStreaming := true |}).
Proof.
  intros Hschema run fullPrompt.
  unfold run, Flow.corpspeakGeneratorFlow. rewrite Hschema, flow_body_run.
  cbn [fst snd producer_calls logged_errors]. fold fullPrompt.
  rewrite producer_calls_flow_rounds, logged_errors_flow_rounds.
  split; [reflexivity |]. split; [reflexivity |]. split; [reflexivity |].
  rewrite !flow_final. unfold Flow.corpspeakGeneratorFlow. cbn [data].
  rewrite Hschema, !flow_body_run. reflexivity.
Qed.

Lemma flow_always_streams_witness :
  producer_calls
    (fst (Flow.corpspeakGeneratorFlow (Error []) scenario_ai false
            (data (request (lit "The server is down.") false))))
  = [(true, Flow.createCorpspeakPrompt (lit "The server is down."))].
Proof.
  apply (flow_always_streams (Error []) scenario_ai false
           (request (lit "The server is down.") false)
           (lit "The server is down.")).
  reflexivity.
Defined.

(** X5. For every chunk that is not empty after the clean-up the flow logs
    a preview, also when it was given no [sendChunk] and so sent nothing:
    the first 50 code units of the cleaned chunk followed by three dots,
    hence at most 53 code units, one preview per such chunk and in the
    producer's order. *)
Theorem flow_log_previews (validationError : Exn) (ai : Producer)
    (sendChunk : bool) (req : CallableRequest) :
  let log := fst (Flow.corpspeakGeneratorFlow validationError ai sendChunk
                    (data req)) in
  previews log =
    map (fun partial => firstn 50 partial ++ lit "...")
      (List.filter truthy (map normalize (flow_produced ai req)))
  /\ Forall (fun preview => (4 <= length preview <= 53)%nat) (previews log).
Proof.
  intros log.
  assert (Hlog : previews log =
            map (fun partial => firstn 50 partial ++ lit "...")
              (List.filter truthy (map normalize (flow_produced ai req)))).
  { unfold log, Flow.corpspeakGeneratorFlow, flow_produced.
    destruct (Flow.inputSchema (data req)) as [userInput |];
      [| reflexivity].
    rewrite flow_body_run. cbn [fst].
    change (previews (?a :: ?b :: ?l)) with (previews l).
    apply previews_flow_rounds. }
  split; [exact Hlog |]. rewrite Hlog.
  apply List.Forall_forall. intros preview Hin.
  apply in_map_iff in Hin as (partial & <- & Hin).
  apply filter_In in Hin as [_ Ht].
  rewrite length_app, length_firstn.
  change (length (lit "...")) with 3%nat.
  destruct partial as [|c partial]; [discriminate |]. simpl length. lia.
Qed.



(** ** Further properties of the request handlers *)

(** X7. A plain call on a text that is not blank, from start to end: it
    issues one call, with the text as typed; it shows the waiting text and
    a running timer; when the reply comes it stops the timer, once, at the
    time of the reply less the time of the start, and shows the completion
    or, after logging it, the error; at last it clears its flag and, unless
    the streamed call is in flight, enables the buttons.  The guard
    [if (nonStreamingOpInProgress)] around the stop never fails. *)
Theorem plain_call_trace (promptText : JsString) (now t : Z)
    (settled : Client.ClientError + Client.Completion) (pg : Client.Page) :
  trim promptText <> [] ->
  let pg' := Client.run
               (Client.handleNonStreamingRequest promptText now (t, settled))
               pg in
  let shown_text :=
    match settled with
    | inr result => Client.completion result
    | inl error => lit "Error: " ++ Client.describe error
    end in
  Client.journal pg' =
    Client.journal pg
    ++ [Client.OutputWrite Client.outputNonStreamingDiv
          (lit "Leveraging core competencies...");
        Client.TimerWrite Client.timerNonStreamingDiv Client.TimerReset;
        Client.TimerWrite Client.timerNonStreamingDiv Client.TimerMeasuring;
        Client.Call false promptText;
        Client.TimerWrite Client.timerNonStreamingDiv
          (Client.TimerStopped (t - now))]
    ++ match settled with
       | inr _ => []
       | inl error =>
           [Client.ConsoleError "Error non-streaming corpspeak:" error]
       end
    ++ [Client.OutputWrite Client.outputNonStreamingDiv shown_text]
    ++ (if Client.streamingOpInProgress pg then []
        else [Client.SetLoading false])
  /\ Client.outputNonStreaming pg' = shown_text
  /\ Client.timerNonStreaming pg' = Client.TimerStopped (t - now)
  /\ Client.nonStreamingStartTime pg' = Some now
  /\ Client.nonStreamingOpInProgress pg' = false
  /\ Client.disabled pg' =
       (if Client.streamingOpInProgress pg then Client.disabled pg
        else false).
Proof.
  intros Htext pg' shown_text. unfold pg', shown_text.
  unfold Client.handleNonStreamingRequest. rewrite (text_truthy _ Htext).
  destruct pg as [st1 st2 f1 f2 o1 o2 t1 t2 d j].
  destruct settled as [error | result]; destruct f2; page_cbv;
    rewrite <- ?app_assoc; cbn [app]; repeat split.
Qed.

Lemma plain_call_trace_witness :
  Client.timerNonStreaming
    (Client.run
       (Client.handleNonStreamingRequest (lit "The website is slow.") 2
          (9%Z, inr {| Client.completion := scenario_final |}))
       initial_page)
  = Client.TimerStopped 7.
Proof.
  apply (plain_call_trace (lit "The website is slow.") 2 9
           (inr {| Client.completion := scenario_final |}) initial_page).
  vm_compute. discriminate.
Defined.

Section OutcomeFacts.

Import Client.

(** One round of the loop leaves all but the streaming output and timer
    alone. *)
Lemma loop_round_frame (t : Z) (chunkData : Partial) (l : Locals) (pg : Page) :
  let pg' := snd (loop_body t chunkData l) pg in
  calls (journal pg') = calls (journal pg)
  /\ streamingOpInProgress pg' = streamingOpInProgress pg
  /\ nonStreamingOpInProgress pg' = nonStreamingOpInProgress pg
  /\ streamingStartTime pg' = streamingStartTime pg
  /\ disabled pg' = disabled pg.
Proof.
  destruct pg as [st1 [start |] f1 f2 o1 o2 t1 t2 d j];
    unfold loop_body; cbn [fst snd];
    destruct (negb (firstChunkReceived l) && truthy (partial chunkData));
    page_cbv; rewrite !calls_app; cbn [calls]; rewrite ?app_nil_r;
    repeat split.
Qed.

(** Where the loop and what follows it leave the page. *)
Lemma consume_outcome (s : ResultStream) (t : Z)
    (settled : ClientError + Completion) :
  forall (l : Locals) (pg : Page),
    streamingOpInProgress pg = true ->
    let pg' := run (consume l s (t, settled)) pg in
    outputStreaming pg' =
      match thrown s, settled with
      | Some error, _ => lit "Error: " ++ describe error
      | None, inl error => lit "Error: " ++ describe error
      | None, inr finalResult =>
          trim (streamedContent l ++ concat (map partial (chunks s)))
          ++ [nl] ++ lit "(Final object: "
          ++ completion finalResult ++ lit ")"
      end
    /\ calls (journal pg') = calls (journal pg)
    /\ streamingOpInProgress pg' = false
    /\ streamingStartTime pg' = streamingStartTime pg
    /\ disabled pg' =
         (if nonStreamingOpInProgress pg then disabled pg else false).
Proof.
  induction s as [te | te error | tc chunkData rest IH]; intros l pg Hin.
  - destruct pg as [st1 [start |] f1 f2 o1 o2 t1 t2 d j];
      cbn [streamingOpInProgress] in Hin; subst;
      destruct settled as [error | finalResult];
      destruct l as [content []]; destruct f1;
      cbn [consume thrown chunks map concat]; page_cbv;
      rewrite ?calls_app; cbn [calls]; rewrite ?app_nil_r; repeat split.
  - destruct pg as [st1 [start |] f1 f2 o1 o2 t1 t2 d j];
      cbn [streamingOpInProgress] in Hin; subst;
      destruct l as [content []]; destruct f1;
      cbn [consume thrown chunks map concat]; page_cbv;
      rewrite ?calls_app; cbn [calls]; rewrite ?app_nil_r; repeat split.
  - cbn [consume thrown chunks map concat].
    pose proof (loop_round_frame tc chunkData l pg) as Hframe.
    pose proof (loop_body_locals tc chunkData l) as Hl'.
    destruct (loop_body tc chunkData l) as [l' round].
    cbn [fst snd] in Hframe, Hl'. cbn zeta in Hframe.
    destruct Hframe as (Hcalls & Hs & Hn & Hst & Hd).
    rewrite run_cons.
    destruct (IH l' (round pg)) as (Hout & Hcalls' & Hs' & Hst' & Hd').
    { rewrite Hs. exact Hin. }
    rewrite Hout, Hcalls', Hs', Hst', Hd', Hcalls, Hst, Hn, Hd.
    subst l'. cbn [streamedContent]. rewrite <- app_assoc.
    repeat split.
Qed.

End OutcomeFacts.

Section HeadFacts.

Import Client.

(** The head of [handleStreamingRequest] and what it leaves alone. *)
Lemma streaming_head (promptText : JsString) (now : Z) (reply : StreamCall)
    (pg : Page) :
  trim promptText <> [] ->
  exists start,
    handleStreamingRequest promptText now reply =
      start
      :: match reply with
         | Rejected t error =>
             [ streaming_catch t fresh error >> streaming_finally ]
         | Opened resultStream dataPromise =>
             set_output outputStreamingDiv (streamedContent fresh)
             :: consume fresh resultStream dataPromise
         end
    /\ streamingStartTime (start pg) = Some now
    /\ streamingOpInProgress (start pg) = true
    /\ nonStreamingOpInProgress (start pg) = nonStreamingOpInProgress pg
    /\ disabled (start pg) = disabled pg
    /\ calls (journal (start pg)) = calls (journal pg) ++ [(true, promptText)].
Proof.
  intros Htext. unfold handleStreamingRequest.
  rewrite (text_truthy _ Htext). eexists. split; [reflexivity |].
  destruct pg as [st1 st2 f1 f2 o1 o2 t1 t2 d j]. page_cbv.
  rewrite !calls_app. cbn [calls]. rewrite ?app_nil_r. repeat split.
Qed.

End HeadFacts.

(** X8. Where a streaming call on a text that is not blank leaves the
    page.  It has issued one call, with the text as typed.  If the final
    result arrived after the stream ended, the output shows the trimmed
    concatenation of the fragments, a line break and the final object;
    if the call was rejected, the stream threw or the final result was
    rejected, the output shows the error instead, and the fragments shown
    until then are gone.  The flag is clear, the start time is that of the
    call, and the buttons are enabled unless the plain call is in flight. *)
Theorem streamed_call_outcome (promptText : JsString) (now : Z)
    (reply : Client.StreamCall) (pg : Client.Page) :
  trim promptText <> [] ->
  let pg' := Client.run (Client.handleStreamingRequest promptText now reply)
               pg in
  Client.outputStreaming pg' = streamed_text reply
  /\ Client.calls (Client.journal pg')
     = Client.calls (Client.journal pg) ++ [(true, promptText)]
  /\ Client.streamingOpInProgress pg' = false
  /\ Client.streamingStartTime pg' = Some now
  /\ Client.disabled pg' =
       (if Client.nonStreamingOpInProgress pg then Client.disabled pg
        else false).
Proof.
  intros Htext pg'. unfold pg'.
  destruct (streaming_head promptText now reply pg Htext)
    as (start & -> & Hst & Hin & Hn & Hd & Hcalls).
  rewrite run_cons.
  destruct reply as [t error | s [t settled]].
  - rewrite <- Hn, <- Hd, <- Hcalls. clear Hn Hd Hcalls.
    destruct (start pg) as [st1 st2 f1 f2 o1 o2 t1 t2 d j].
    cbn [Client.streamingStartTime Client.streamingOpInProgress] in Hst, Hin.
    subst. cbn [streamed_text].
    destruct f1; page_cbv; rewrite ?calls_app; cbn [Client.calls];
      rewrite ?app_nil_r; repeat split.
  - rewrite run_cons.
    destruct (consume_outcome s t settled Client.fresh
                (Client.set_output Client.outputStreamingDiv
                   (Client.streamedContent Client.fresh) (start pg)))
      as (Hout & Hcalls' & Hs' & Hst' & Hd').
    { destruct (start pg). exact Hin. }
    rewrite Hout, Hcalls', Hs', Hst', Hd'. rewrite <- Hn, <- Hd, <- Hcalls.
    clear Hn Hd Hcalls Hout Hcalls' Hs' Hst' Hd'.
    destruct (start pg) as [st1 st2 f1 f2 o1 o2 t1 t2 d j].
    cbn [Client.streamingStartTime Client.streamingOpInProgress] in Hst, Hin.
    subst. cbn [streamed_text]. page_cbv.
    rewrite ?calls_app; cbn [Client.calls app]; rewrite ?app_nil_r.
    repeat split.
Qed.

Lemma streamed_call_outcome_witness :
  Client.outputStreaming
    (Client.run
       (Client.handleStreamingRequest (lit "The server is down.") 0
          scenario_reply)
       initial_page)
  = lit "Per our strategic review,"
    ++ [nl] ++ lit "(Final object: " ++ scenario_final ++ lit ")".
Proof.
  assert (Htext : trim (lit "The server is down.") <> [])
    by (vm_compute; discriminate).
  destruct (streamed_call_outcome (lit "The server is down.") 0
              scenario_reply initial_page Htext) as [Hout _].
  rewrite Hout. vm_compute. reflexivity.
Defined.

(** ** The page as a whole *)

(** Settles what a segment does to the two flags and the buttons. *)
Ltac flag_segment :=
  intros [st1 st2 f1 f2 o1 o2 t1 t2 d j];
  page_cbv; split_page_cases; repeat split.

Section UiFacts.

Import Client.

Lemma sample_prompts_text :
  Forall (fun p => trim p <> []) Ui.samplePrompts.
Proof.
  unfold Ui.samplePrompts.
  repeat (apply List.Forall_cons; [vm_compute; discriminate |]).
  apply List.Forall_nil.
Qed.

Lemma blank_or_text (s : JsString) : trim s = [] \/ trim s <> [].
Proof. destruct (trim s); [left; reflexivity | right; discriminate]. Qed.

Lemma plain_shape (promptText : JsString) (now : Z)
    (reply : Settled Completion) :
  trim promptText <> [] ->
  exists start fin,
    handleNonStreamingRequest promptText now reply = [start; fin]
    /\ raises false start /\ clears false fin.
Proof.
  intros Htext. unfold handleNonStreamingRequest.
  rewrite (text_truthy _ Htext). eexists _, _.
  split; [reflexivity |]. split; [flag_segment |].
  destruct reply as [t [error | result]]; flag_segment.
Qed.

Lemma consume_winding (s : ResultStream) (dataPromise : Settled Completion) :
  forall l : Locals, Winding true (consume l s dataPromise).
Proof.
  induction s as [t | t error | t chunkData rest IH]; intros l.
  - cbn [consume]. apply winding_more; [| apply winding_last].
    + destruct l as [content []]; flag_segment.
    + destruct dataPromise as [td [error | finalResult]];
        destruct l as [content []]; flag_segment.
  - cbn [consume]. apply winding_last.
    destruct l as [content []]; flag_segment.
  - cbn [consume]. unfold loop_body.
    apply winding_more; [| apply IH].
    destruct (negb (firstChunkReceived l) && truthy (partial chunkData));
      flag_segment.
Qed.

Lemma streamed_shape (promptText : JsString) (now : Z) (reply : StreamCall) :
  trim promptText <> [] ->
  exists start rest,
    handleStreamingRequest promptText now reply = start :: rest
    /\ raises true start /\ Winding true rest.
Proof.
  intros Htext. unfold handleStreamingRequest.
  rewrite (text_truthy _ Htext). eexists _, _.
  split; [reflexivity |]. split; [flag_segment |].
  destruct reply as [t error | s dataPromise].
  - apply winding_last. flag_segment.
  - apply winding_more; [flag_segment | apply consume_winding].
Qed.

Lemma busy_false (pg : Page) :
  Ui.busy pg = false ->
  nonStreamingOpInProgress pg = false /\ streamingOpInProgress pg = false.
Proof. unfold Ui.busy. apply orb_false_elim. Qed.

Lemma prelude_flags (now : Z) (pg : Page) :
  nonStreamingOpInProgress (lucky_prelude now pg) = false
  /\ streamingOpInProgress (lucky_prelude now pg) = false
  /\ disabled (lucky_prelude now pg) = true.
Proof.
  destruct pg as [st1 st2 f1 f2 o1 o2 t1 t2 d j].
  unfold lucky_prelude. page_cbv. repeat split.
Qed.

(** A click on either request button keeps the page consistent. *)
Lemma click_plain_consistent (now : Z) (reply : Settled Completion)
    (st : Ui.State) :
  Consistent st -> Consistent (Ui.btnNonStreaming_click now reply st).
Proof.
  intros Hst. pose proof Hst as [Hd Hshape]. unfold Ui.btnNonStreaming_click.
  destruct (Ui.busy (Ui.page st)) eqn:Hbusy; [exact Hst |].
  destruct (busy_false _ Hbusy) as [Ha Hb]. rewrite Ha, Hb in Hshape.
  inversion Hshape as [Hnil | | |].
  destruct st as [pg input tasks].
  cbn [Ui.page Ui.inFlight Ui.userInput Ui.on_page] in *. subst.
  destruct (blank_or_text input) as [Hblank | Htext].
  - unfold handleNonStreamingRequest. rewrite (blank_truthy _ Hblank).
    unfold Consistent, Ui.start, Ui.on_page, Ui.busy.
    cbn [Ui.page Ui.inFlight app].
    destruct pg as [st1 st2 f1 f2 o1 o2 t1 t2 d j].
    cbn [nonStreamingOpInProgress streamingOpInProgress] in Ha, Hb. subst.
    page_cbv. split; [reflexivity | constructor].
  - destruct (plain_shape input now reply Htext)
      as (start & fin & -> & Hstart & Hfin).
    unfold Consistent, Ui.start, Ui.on_page, Ui.busy.
    cbn [Ui.page Ui.inFlight app].
    destruct (Hstart (setLoading true pg)) as (-> & -> & ->).
    destruct pg as [st1 st2 f1 f2 o1 o2 t1 t2 d j].
    cbn [nonStreamingOpInProgress streamingOpInProgress] in Ha, Hb. subst.
    page_cbv. split; [reflexivity |].
    apply plain_in_flight, winding_last, Hfin.
Qed.

Lemma click_streamed_consistent (now : Z) (reply : StreamCall)
    (st : Ui.State) :
  Consistent st -> Consistent (Ui.btnStreaming_click now reply st).
Proof.
  intros Hst. pose proof Hst as [Hd Hshape]. unfold Ui.btnStreaming_click.
  destruct (Ui.busy (Ui.page st)) eqn:Hbusy; [exact Hst |].
  destruct (busy_false _ Hbusy) as [Ha Hb]. rewrite Ha, Hb in Hshape.
  inversion Hshape as [Hnil | | |].
  destruct st as [pg input tasks].
  cbn [Ui.page Ui.inFlight Ui.userInput Ui.on_page] in *. subst.
  destruct (blank_or_text input) as [Hblank | Htext].
  - unfold handleStreamingRequest. rewrite (blank_truthy _ Hblank).
    unfold Consistent, Ui.start, Ui.on_page, Ui.busy.
    cbn [Ui.page Ui.inFlight app].
    destruct pg as [st1 st2 f1 f2 o1 o2 t1 t2 d j].
    cbn [nonStreamingOpInProgress streamingOpInProgress] in Ha, Hb. subst.
    page_cbv. split; [reflexivity | constructor].
  - destruct (streamed_shape input now reply Htext)
      as (start & rest & -> & Hstart & Hrest).
    unfold Consistent, Ui.start, Ui.on_page, Ui.busy.
    cbn [Ui.page Ui.inFlight app].
    destruct (Hstart (setLoading true pg)) as (-> & -> & ->).
    destruct pg as [st1 st2 f1 f2 o1 o2 t1 t2 d j].
    cbn [nonStreamingOpInProgress streamingOpInProgress] in Ha, Hb. subst.
    page_cbv. split; [reflexivity |].
    destruct Hrest as [f Hf | f more Hf Hmore]; apply streamed_in_flight;
      [apply winding_last | apply winding_more]; assumption.
Qed.

(** A lucky click starts both calls. *)
Lemma click_lucky_consistent (randomIndex : nat) (plainNow streamNow : Z)
    (plainReply : Settled Completion) (streamReply : StreamCall)
    (st : Ui.State) :
  (randomIndex < length Ui.samplePrompts)%nat ->
  Consistent st ->
  Consistent
    (Ui.btnImFeelingLucky_click randomIndex plainNow streamNow plainReply
       streamReply st).
Proof.
  intros Hrange Hst. pose proof Hst as [Hd Hshape].
  unfold Ui.btnImFeelingLucky_click.
  destruct (Ui.busy (Ui.page st)) eqn:Hbusy; [exact Hst |].
  destruct (busy_false _ Hbusy) as [Ha Hb]. rewrite Ha, Hb in Hshape.
  inversion Hshape as [Hnil | | |].
  destruct st as [pg input tasks].
  cbn [Ui.page Ui.inFlight Ui.userInput] in *. subst tasks.
  destruct (nth_error Ui.samplePrompts randomIndex) as [luckyPrompt |] eqn:Hnth;
    [| apply nth_error_None in Hnth; lia].
  assert (Htext : trim luckyPrompt <> []).
  { pose proof sample_prompts_text as Hall.
    rewrite List.Forall_forall in Hall.
    apply Hall, (nth_error_In _ _ Hnth). }
  destruct (plain_shape luckyPrompt plainNow plainReply Htext)
    as (startA & fin & -> & HstartA & Hfin).
  destruct (streamed_shape luckyPrompt streamNow streamReply Htext)
    as (startB & rest & -> & HstartB & Hrest).
  destruct (prelude_flags plainNow pg) as (Hpa & Hpb & Hpd).
  unfold Consistent, Ui.start, Ui.busy. cbn [Ui.page Ui.inFlight app].
  destruct (HstartB (startA (lucky_prelude plainNow pg))) as (-> & -> & ->).
  destruct (HstartA (lucky_prelude plainNow pg)) as (-> & _ & ->).
  rewrite Hpd. split; [reflexivity |].
  destruct Hrest as [f Hf | f more Hf Hmore];
    (apply both_in_flight; [apply winding_last, Hfin |]);
    [apply winding_last | apply winding_more]; assumption.
Qed.

(** A call in flight that runs its next segment keeps the page
    consistent. *)
Lemma resume_consistent (i : nat) (st : Ui.State) :
  Consistent st -> Consistent (Ui.resume i st).
Proof.
  intros Hst. pose proof Hst as [Hd Hshape]. unfold Ui.resume.
  destruct st as [pg input tasks].
  cbn [Ui.page Ui.inFlight Ui.userInput] in *.
  unfold Ui.busy in Hd.
  inversion Hshape as [Ha Hb Ht | t Hw Ha Hb Ht | t Hw Ha Hb Ht
                       | ta tb Hwa Hwb Ha Hb Ht];
    subst tasks; symmetry in Ha, Hb; rewrite Ha, Hb in Hd.
  - destruct i; cbn [nth_error]; exact Hst.
  - destruct i as [| i]; [| destruct i; cbn [nth_error]; exact Hst].
    cbn [nth_error]. unfold Consistent, Ui.busy.
    inversion Hw as [f Hf Heq | f rest Hf Hrest Heq]; subst t;
      cbn [Ui.page Ui.inFlight firstn skipn app].
    + destruct (Hf pg) as (-> & -> & ->). rewrite Hb.
      split; [reflexivity | constructor].
    + inversion Hrest as [g Hg Heq | g more Hg Hmore Heq]; subst rest;
        cbn [Ui.page Ui.inFlight firstn skipn app];
        destruct (Hf pg) as (-> & -> & ->); rewrite Ha, Hb;
        (split; [exact Hd | apply plain_in_flight, Hrest]).
  - destruct i as [| i]; [| destruct i; cbn [nth_error]; exact Hst].
    cbn [nth_error]. unfold Consistent, Ui.busy.
    inversion Hw as [f Hf Heq | f rest Hf Hrest Heq]; subst t;
      cbn [Ui.page Ui.inFlight firstn skipn app].
    + destruct (Hf pg) as (-> & -> & ->). rewrite Ha.
      split; [reflexivity | constructor].
    + inversion Hrest as [g Hg Heq | g more Hg Hmore Heq]; subst rest;
        cbn [Ui.page Ui.inFlight firstn skipn app];
        destruct (Hf pg) as (-> & -> & ->); rewrite Ha, Hb;
        (split; [exact Hd | apply streamed_in_flight, Hrest]).
  - destruct i as [| [| i]];
      [| | destruct i; cbn [nth_error]; exact Hst];
      cbn [nth_error]; unfold Consistent, Ui.busy.
    + inversion Hwa as [f Hf Heq | f rest Hf Hrest Heq]; subst ta;
        cbn [Ui.page Ui.inFlight firstn skipn app].
      * destruct (Hf pg) as (-> & -> & ->). rewrite Hb.
        split; [exact Hd | apply streamed_in_flight, Hwb].
      * inversion Hrest as [g Hg Heq | g more Hg Hmore Heq]; subst rest;
          cbn [Ui.page Ui.inFlight firstn skipn app];
          destruct (Hf pg) as (-> & -> & ->); rewrite Ha, Hb;
          (split; [exact Hd | apply both_in_flight; assumption]).
    + inversion Hwb as [f Hf Heq | f rest Hf Hrest Heq]; subst tb;
        cbn [Ui.page Ui.inFlight firstn skipn app].
      * destruct (Hf pg) as (-> & -> & ->). rewrite Ha.
        split; [exact Hd | apply plain_in_flight, Hwa].
      * inversion Hrest as [g Hg Heq | g more Hg Hmore Heq]; subst rest;
          cbn [Ui.page Ui.inFlight firstn skipn app];
          destruct (Hf pg) as (-> & -> & ->); rewrite Ha, Hb;
          (split; [exact Hd | apply both_in_flight; assumption]).
Qed.

Lemma step_consistent (st : Ui.State) (ev : Ui.Event) :
  in_range ev -> Consistent st -> Consistent (Ui.step st ev).
Proof.
  intros Hrange Hst. destruct ev; cbn [Ui.step].
  - destruct Hst as [Hd Hshape]. split; assumption.
  - apply click_plain_consistent, Hst.
  - apply click_streamed_consistent, Hst.
  - apply click_lucky_consistent; assumption.
  - apply resume_consistent, Hst.
Qed.

Lemma run_events_consistent (evs : list Ui.Event) :
  forall st,
    Forall in_range evs -> Consistent st ->
    Consistent (Ui.run_events st evs).
Proof.
  induction evs as [| ev evs IH]; intros st Hrange Hst; [exact Hst |].
  apply List.Forall_cons_iff in Hrange as [Hev Hrange].
  cbn [Ui.run_events fold_left]. apply IH; [exact Hrange |].
  apply step_consistent; assumption.
Qed.

Lemma loaded_consistent : Consistent loaded.
Proof. split; [reflexivity | constructor]. Qed.

End UiFacts.

Section ReachFacts.

Import Client.

Lemma consistent_idle (st : Ui.State) :
  Consistent st ->
  disabled (Ui.page st) = negb (idle st)
  /\ (length (Ui.inFlight st) <= 2)%nat
  /\ (idle st = true ->
      nonStreamingOpInProgress (Ui.page st) = false
      /\ streamingOpInProgress (Ui.page st) = false).
Proof.
  intros [Hd Hshape]. unfold Ui.busy in Hd. unfold idle.
  inversion Hshape as [Ha Hb Ht | t Hw Ha Hb Ht | t Hw Ha Hb Ht
                       | ta tb Hwa Hwb Ha Hb Ht];
    rewrite <- Ha, <- Hb in Hd; rewrite Hd; cbn [length negb orb];
    repeat split; try lia; discriminate.
Qed.

Lemma winding_length (streaming : bool) (task : Task) :
  Winding streaming task -> (1 <= length task)%nat.
Proof. intros [f Hf | f rest Hf Hrest]; simpl; lia. Qed.

(** The first call in flight runs a segment: one segment less is left. *)
Lemma resume_pending (st : Ui.State) :
  Consistent st ->
  idle st = false ->
  S (pending (Ui.resume 0 st)) = pending st.
Proof.
  intros [_ Hshape] Hidle. unfold Ui.resume, pending, idle in *.
  destruct st as [pg input tasks].
  cbn [Ui.page Ui.inFlight Ui.userInput] in *.
  inversion Hshape as [Ha Hb Ht | t Hw Ha Hb Ht | t Hw Ha Hb Ht
                       | ta tb Hwa Hwb Ha Hb Ht];
    subst tasks; [discriminate | | |]; cbn [nth_error].
  - destruct Hw as [f Hf | f rest Hf Hrest]; [reflexivity |].
    destruct Hrest; reflexivity.
  - destruct Hw as [f Hf | f rest Hf Hrest]; [reflexivity |].
    destruct Hrest; reflexivity.
  - destruct Hwa as [f Hf | f rest Hf Hrest]; [reflexivity |].
    destruct Hrest; reflexivity.
Qed.

Lemma pending_idle (st : Ui.State) :
  Consistent st -> pending st = 0%nat -> idle st = true.
Proof.
  intros [_ Hshape] Hzero. unfold pending, idle in *.
  inversion Hshape as [Ha Hb Ht | t Hw Ha Hb Ht | t Hw Ha Hb Ht
                       | ta tb Hwa Hwb Ha Hb Ht];
    rewrite <- Ht in *; [reflexivity | | |]; exfalso;
    cbn [concat] in Hzero; rewrite ?length_app in Hzero.
  - pose proof (winding_length _ _ Hw). simpl in Hzero. lia.
  - pose proof (winding_length _ _ Hw). simpl in Hzero. lia.
  - pose proof (winding_length _ _ Hwa). lia.
Qed.

Lemma drain (n : nat) :
  forall st,
    Consistent st -> pending st = n ->
    Consistent (Ui.run_events st (repeat (Ui.Resume 0) n))
    /\ idle (Ui.run_events st (repeat (Ui.Resume 0) n)) = true.
Proof.
  induction n as [| n IH]; intros st Hst Hpending.
  - split; [exact Hst | apply pending_idle; assumption].
  - cbn [repeat Ui.run_events fold_left Ui.step].
    assert (Hidle : idle st = false).
    { destruct (idle st) eqn:Hi; [| reflexivity].
      unfold idle in Hi. unfold pending in Hpending.
      destruct (Ui.inFlight st); [discriminate Hpending | discriminate Hi]. }
    apply IH; [apply resume_consistent, Hst |].
    pose proof (resume_pending st Hst Hidle). lia.
Qed.

(** The head of [handleNonStreamingRequest] and what it leaves alone. *)
Lemma plain_head (promptText : JsString) (now : Z)
    (reply : Settled Completion) (pg : Page) :
  trim promptText <> [] ->
  exists start fin,
    handleNonStreamingRequest promptText now reply = [start; fin]
    /\ nonStreamingOpInProgress (start pg) = true
    /\ streamingOpInProgress (start pg) = streamingOpInProgress pg
    /\ disabled (start pg) = disabled pg
    /\ calls (journal (start pg)) = calls (journal pg) ++ [(false, promptText)].
Proof.
  intros Htext. unfold handleNonStreamingRequest.
  rewrite (text_truthy _ Htext). eexists _, _. split; [reflexivity |].
  destruct pg as [st1 st2 f1 f2 o1 o2 t1 t2 d j]. page_cbv.
  rewrite !calls_app. cbn [calls]. rewrite ?app_nil_r. repeat split.
Qed.

Lemma prelude_calls (now : Z) (pg : Page) :
  calls (journal (lucky_prelude now pg)) = calls (journal pg).
Proof.
  destruct pg as [st1 st2 f1 f2 o1 o2 t1 t2 d j].
  unfold lucky_prelude. page_cbv.
  rewrite !calls_app. cbn [calls]. rewrite ?app_nil_r. reflexivity.
Qed.

End ReachFacts.

(** X9. Whatever the user does and in whatever order the calls in flight
    get their replies, the page stays consistent: the buttons are disabled
    exactly while a call is in flight, each flag says whether its call is
    in flight, and at most one plain and one streamed call are in flight at
    a time. *)
Theorem buttons_track_calls (evs : list Ui.Event) :
  Forall in_range evs ->
  let st := Ui.run_events loaded evs in
  Consistent st
  /\ Client.disabled (Ui.page st) = negb (idle st)
  /\ (length (Ui.inFlight st) <= 2)%nat
  /\ (idle st = true ->
      Client.nonStreamingOpInProgress (Ui.page st) = false
      /\ Client.streamingOpInProgress (Ui.page st) = false).
Proof.
  intros Hrange st.
  assert (Hst : Consistent st)
    by (apply run_events_consistent; [exact Hrange | apply loaded_consistent]).
  split; [exact Hst | apply consistent_idle, Hst].
Qed.

Lemma buttons_track_calls_witness :
  let evs := [Ui.Typed (lit "  ");
              Ui.ClickStreaming 0 scenario_reply;
              Ui.ClickLucky 2 1 1
                (7%Z, inr {| Client.completion := scenario_final |})
                scenario_reply;
              Ui.Resume 1; Ui.Resume 0; Ui.ClickNonStreaming 8
                (9%Z, inr {| Client.completion := scenario_final |})] in
  Client.disabled (Ui.page (Ui.run_events loaded evs)) = true
  /\ length (Ui.inFlight (Ui.run_events loaded evs)) = 1%nat.
Proof.
  intros evs.
  assert (Hrange : Forall in_range evs).
  { unfold evs. repeat (apply List.Forall_cons; [simpl; try lia; exact I |]).
    apply List.Forall_nil. }
  destruct (buttons_track_calls evs Hrange) as (_ & Hd & _).
  split; [rewrite Hd |]; vm_compute; reflexivity.
Defined.

(** X10. While the buttons are disabled a click does nothing: in every
    state the page can reach, a click on any of the three buttons leaves
    the page, the input area and the calls in flight as they are. *)
Theorem disabled_clicks_ignored (evs : list Ui.Event) (ev : Ui.Event) :
  Forall in_range evs ->
  let st := Ui.run_events loaded evs in
  Client.disabled (Ui.page st) = true ->
  is_click ev = true ->
  Ui.step st ev = st.
Proof.
  intros Hrange st Hdisabled Hclick.
  assert (Hst : Consistent st)
    by (apply run_events_consistent; [exact Hrange | apply loaded_consistent]).
  destruct Hst as [Hd _]. rewrite Hdisabled in Hd.
  destruct ev; try discriminate; cbn [Ui.step];
    unfold Ui.btnNonStreaming_click, Ui.btnStreaming_click,
      Ui.btnImFeelingLucky_click;
    rewrite <- Hd; reflexivity.
Qed.

Lemma disabled_clicks_ignored_witness :
  let evs := [Ui.Typed (lit "The website is slow.");
              Ui.ClickStreaming 0 scenario_reply] in
  Ui.step (Ui.run_events loaded evs)
    (Ui.ClickLucky 3 1 1
       (7%Z, inr {| Client.completion := scenario_final |}) scenario_reply)
  = Ui.run_events loaded evs.
Proof.
  intros evs.
  apply (disabled_clicks_ignored evs).
  - unfold evs. repeat (apply List.Forall_cons; [exact I |]).
    apply List.Forall_nil.
  - vm_compute. reflexivity.
  - reflexivity.
Defined.

(** X11. The page never stays locked: from every state it can reach, once
    the calls in flight have run the segments they have left, no call is
    in flight, both flags are clear and the buttons are enabled. *)
Theorem calls_end_and_buttons_return (evs : list Ui.Event) :
  Forall in_range evs ->
  let st := Ui.run_events loaded evs in
  let st' := Ui.run_events st (repeat (Ui.Resume 0) (pending st)) in
  Ui.inFlight st' = []
  /\ Client.disabled (Ui.page st') = false
  /\ Client.nonStreamingOpInProgress (Ui.page st') = false
  /\ Client.streamingOpInProgress (Ui.page st') = false.
Proof.
  intros Hrange st st'.
  assert (Hst : Consistent st)
    by (apply run_events_consistent; [exact Hrange | apply loaded_consistent]).
  destruct (drain (pending st) st Hst eq_refl) as [Hst' Hidle].
  fold st' in Hst', Hidle.
  destruct (consistent_idle st' Hst') as (Hd & _ & Hflags).
  rewrite Hidle in Hd. destruct (Hflags Hidle) as [Ha Hb].
  unfold idle in Hidle.
  destruct (Ui.inFlight st'); [| discriminate]. repeat split; assumption.
Qed.

Lemma calls_end_and_buttons_return_witness :
  let evs := [Ui.ClickLucky 9 1 1
                (7%Z, inr {| Client.completion := scenario_final |})
                late_text_reply;
              Ui.Resume 1] in
  pending (Ui.run_events loaded evs) = 5%nat
  /\ Client.disabled
       (Ui.page
          (Ui.run_events (Ui.run_events loaded evs)
             (repeat (Ui.Resume 0) (pending (Ui.run_events loaded evs)))))
     = false.
Proof.
  intros evs. split; [vm_compute; reflexivity |].
  apply (calls_end_and_buttons_return evs).
  unfold evs. repeat (apply List.Forall_cons; [simpl; try lia; exact I |]).
  apply List.Forall_nil.
Defined.

(** X12. A lucky click on a page that is not busy picks one prompt of the
    table, which is never blank, puts it in the input area and issues
    exactly two calls with it, the plain one and then the streamed one;
    both flags are set, the buttons disabled and two more calls are in
    flight. *)
Theorem lucky_click_starts_both (randomIndex : nat) (plainNow streamNow : Z)
    (plainReply : Client.Settled Client.Completion)
    (streamReply : Client.StreamCall) (st : Ui.State) :
  Ui.busy (Ui.page st) = false ->
  (randomIndex < length Ui.samplePrompts)%nat ->
  let st' := Ui.btnImFeelingLucky_click randomIndex plainNow streamNow
               plainReply streamReply st in
  exists luckyPrompt,
    nth_error Ui.samplePrompts randomIndex = Some luckyPrompt
    /\ trim luckyPrompt <> []
    /\ Ui.userInput st' = luckyPrompt
    /\ Client.calls (Client.journal (Ui.page st'))
       = Client.calls (Client.journal (Ui.page st))
         ++ [(false, luckyPrompt); (true, luckyPrompt)]
    /\ Client.nonStreamingOpInProgress (Ui.page st') = true
    /\ Client.streamingOpInProgress (Ui.page st') = true
    /\ Client.disabled (Ui.page st') = true
    /\ length (Ui.inFlight st') = (length (Ui.inFlight st) + 2)%nat.
Proof.
  intros Hbusy Hrange st'. unfold st', Ui.btnImFeelingLucky_click.
  rewrite Hbusy.
  destruct (nth_error Ui.samplePrompts randomIndex) as [luckyPrompt |] eqn:Hnth;
    [| apply nth_error_None in Hnth; lia].
  assert (Htext : trim luckyPrompt <> []).
  { pose proof sample_prompts_text as Hall.
    rewrite List.Forall_forall in Hall.
    apply Hall, (nth_error_In _ _ Hnth). }
  exists luckyPrompt. split; [reflexivity |]. split; [exact Htext |].
  destruct st as [pg input tasks]. cbn [Ui.page Ui.inFlight Ui.userInput].
  destruct (prelude_flags plainNow pg) as (_ & _ & Hpd).
  pose proof (prelude_calls plainNow pg) as Hpc.
  destruct (plain_head luckyPrompt plainNow plainReply
              (Client.lucky_prelude plainNow pg) Htext)
    as (startA & fin & -> & HaA & _ & HdA & HcA).
  destruct (streaming_head luckyPrompt streamNow streamReply
              (startA (Client.lucky_prelude plainNow pg)) Htext)
    as (startB & -> & _ & HbB & HaB & HdB & HcB).
  unfold Ui.start. cbn [Ui.page Ui.inFlight Ui.userInput].
  rewrite HcB, HcA, Hpc, HaB, HaA, HbB, HdB, HdA, Hpd, <- app_assoc.
  repeat split.
  destruct streamReply as [t error | s dataPromise];
    rewrite !length_app; cbn [length]; lia.
Qed.

Lemma lucky_click_starts_both_witness :
  Ui.userInput
    (Ui.btnImFeelingLucky_click 6 0 0
       (7%Z, inr {| Client.completion := scenario_final |})
       scenario_reply loaded)
  = lit "The coffee machine is broken again.".
Proof.
  destruct (lucky_click_starts_both 6 0 0
              (7%Z, inr {| Client.completion := scenario_final |})
              scenario_reply loaded eq_refl)
    as (luckyPrompt & Hnth & _ & Hinput & _).
  - simpl. lia.
  - rewrite Hinput. injection Hnth as <-. reflexivity.
Defined.

(** X13. A click on a request button with an empty or blank input area, on
    a page that is not busy, locks nothing: the buttons are disabled and
    enabled again at once, no call is issued, none is in flight, and the
    flags, outputs and timers are as before. *)
Theorem blank_click_unlocks (now : Z)
    (reply : Client.Settled Client.Completion)
    (streamReply : Client.StreamCall) (st : Ui.State) :
  Ui.busy (Ui.page st) = false ->
  trim (Ui.userInput st) = [] ->
  let unlocked :=
    Ui.on_page
      (Client.andThen (Client.setLoading true) (Client.setLoading false)) st in
  Ui.btnNonStreaming_click now reply st = unlocked
  /\ Ui.btnStreaming_click now streamReply st = unlocked
  /\ Client.disabled (Ui.page unlocked) = false
  /\ Client.calls (Client.journal (Ui.page unlocked))
     = Client.calls (Client.journal (Ui.page st))
  /\ view false (Ui.page unlocked) = view false (Ui.page st)
  /\ view true (Ui.page unlocked) = view true (Ui.page st).
Proof.
  intros Hbusy Hblank unlocked. unfold unlocked.
  unfold Ui.btnNonStreaming_click, Ui.btnStreaming_click.
  rewrite Hbusy. destruct (busy_false _ Hbusy) as [Ha Hb].
  unfold Client.handleNonStreamingRequest, Client.handleStreamingRequest.
  rewrite (blank_truthy _ Hblank).
  destruct st as [pg input tasks].
  unfold Ui.start, Ui.on_page. cbn [Ui.page Ui.inFlight Ui.userInput] in *.
  destruct pg as [st1 st2 f1 f2 o1 o2 t1 t2 d j].
  cbn [Client.nonStreamingOpInProgress Client.streamingOpInProgress]
    in Ha, Hb.
  subst. unfold view. page_cbv.
  rewrite ?app_nil_r, ?calls_app, ?List.filter_app.
  cbn [Client.calls List.filter own]. rewrite ?app_nil_r. repeat split.
Qed.

Lemma blank_click_unlocks_witness :
  Ui.btnStreaming_click 0 scenario_reply loaded
  = Ui.on_page
      (Client.andThen (Client.setLoading true) (Client.setLoading false))
      loaded.
Proof.
  apply (blank_click_unlocks 0
           (7%Z, inr {| Client.completion := scenario_final |})
           scenario_reply loaded); reflexivity.
Defined.

(** X14. The one case in which a streaming call writes its time to first
    output twice: the stream ends without a fragment that has text, so the
    time is written at the end of the stream, and then the final result is
    rejected, so the [catch] block, finding [firstChunkReceived] still
    false, writes it again with the time of the rejection. *)
Theorem ttfb_written_again (promptText : JsString) (now td : Z)
    (s : Client.ResultStream) (error : Client.ClientError)
    (pg : Client.Page) :
  trim promptText <> [] ->
  Client.first_text s = None ->
  Client.ends_normally s = true ->
  Client.ttfb_marks
    (Client.journal
       (Client.run
          (Client.handleStreamingRequest promptText now
             (Client.Opened s (td, inl error))) pg))
  = Client.ttfb_marks (Client.journal pg)
    ++ [(Client.closes s - now)%Z; (td - now)%Z].
Proof.
  intros Htext Hfirst Hends.
  destruct (streaming_start promptText now
              (Client.Opened s (td, inl error)) pg Htext)
    as (start & rest & -> & -> & Hst & Hin & Hmarks & _).
  rewrite !run_cons, <- Hmarks.
  rewrite (consume_marks now s (td, inl error) Client.fresh).
  - unfold loop_marks. cbn [Client.firstChunkReceived Client.fresh fst snd].
    rewrite Hfirst, Hends. cbn [succeeded negb andb]. f_equal.
    destruct (start pg). page_cbv. rewrite ttfb_marks_app. apply app_nil_r.
  - destruct (start pg). exact Hst.
  - destruct (start pg). exact Hin.
Qed.

Lemma ttfb_written_again_witness :
  Client.ttfb_marks
    (Client.journal
       (Client.run
          (Client.handleStreamingRequest (lit "hi") 0
             (Client.Opened
                (Client.Yields 5 {| Client.partial := [] |} (Client.Ends 12))
                (13%Z, inl {| Client.name := lit "FirebaseError";
                              Client.message := lit "internal" |})))
          initial_page))
  = [12%Z; 13%Z].
Proof.
  apply (ttfb_written_again (lit "hi") 0 13
           (Client.Yields 5 {| Client.partial := [] |} (Client.Ends 12))
           {| Client.name := lit "FirebaseError";
              Client.message := lit "internal" |} initial_page).
  - vm_compute. discriminate.
  - reflexivity.
  - reflexivity.
Defined.

(** ** Requests with any data *)

Section AnyFacts.

Variable ai : Producer.

Lemma prompt_field_read (d : Any.Data) (v : JsValue) :
  Any.prompt d = inr v -> v = prompt_field d.
Proof.
  destruct d as [fields | []]; cbn [Any.prompt prompt_field];
    intros H; try discriminate; injection H as <-; reflexivity.
Qed.





End AnyFacts.




(** ** Two calls in flight: what each shows, and the buttons *)

Section TogetherFacts.

Import Client.







End TogetherFacts.




